(** * get_vendor_summary: the vendor summary report

    A shallow embedding of [get_vendor_summary.py]: the aggregation query of
    [create_vendor_summary] (the Aggregator) and the table post-processing of
    [clean_vendor_summary] (the Enricher).

    Conventions of the model.
    - A cell of a table is null ([NaN], which stands for pandas' None/NaN),
      a number or a string.  Numbers are exact rationals: the rounding,
      overflow and infinities of float64 are outside the model.
    - A DataFrame is its row count and its labelled columns, in order.
      Column labels are taken to be unique, as they are in the result of the
      query.
    - Exceptions are values of [exn]; fallible code returns a [result].
    - The log file is the list of records a call appends to it. *)

From Stdlib Require Import List String ZArith QArith Bool Arith Lia.
From Stdlib Require Import Sorting.Sorted Sorting.Permutation.
Import ListNotations.

Set Implicit Arguments.

(** ** Cells, series and frames *)

Inductive cell : Type :=
| NaN
| Num (q : Q)
| Str (s : string).

Definition Series := list cell.

Definition isna (c : cell) : bool :=
  match c with NaN => true | _ => false end.

Record DataFrame : Type := mkDataFrame {
  index : nat;                            (* number of rows *)
  columns : list (string * Series)
}.

(** [pd.DataFrame()] *)
Definition DataFrame_new : DataFrame := mkDataFrame 0 [].

(** [df.empty]: true when either axis has length zero. *)
Definition empty (df : DataFrame) : bool :=
  (index df =? 0)%nat || match columns df with [] => true | _ => false end.

(** Every column has one cell per row. *)
Definition wf (df : DataFrame) : Prop :=
  Forall (fun c => List.length (snd c) = index df) (columns df).

Fixpoint assoc (c : string) (l : list (string * Series)) : option Series :=
  match l with
  | [] => None
  | (c', s) :: t => if String.eqb c' c then Some s else assoc c t
  end.

(** An existing label keeps its position, a new one goes last. *)
Fixpoint assign (c : string) (s : Series) (l : list (string * Series))
  : list (string * Series) :=
  match l with
  | [] => [(c, s)]
  | (c', s') :: t =>
      if String.eqb c' c then (c, s) :: t else (c', s') :: assign c s t
  end.

Definition getcol (c : string) (df : DataFrame) : option Series :=
  assoc c (columns df).

Definition setcol (c : string) (s : Series) (df : DataFrame) : DataFrame :=
  mkDataFrame (index df) (assign c s (columns df)).

(** The cell of column [c] at row [i]. *)
Definition iat (df : DataFrame) (c : string) (i : nat) : option cell :=
  match getcol c df with
  | Some s => nth_error s i
  | None => None
  end.

(** ** Exceptions and results *)

Inductive exn : Type :=
| KeyError (key : string)
| TypeError (msg : string)
| ZeroDivisionError
| DatabaseError (msg : string).

Inductive result (A : Type) : Type :=
| Ok (a : A)
| Raise (e : exn).

Arguments Ok {A} a.
Arguments Raise {A} e.

(** [str(e)]: a KeyError prints the repr of its key. *)
Definition str (e : exn) : string :=
  match e with
  | KeyError k => ("'" ++ k ++ "'")%string
  | TypeError m => m
  | ZeroDivisionError => "division by zero"%string
  | DatabaseError m => m
  end.

(** ** Logging *)

Inductive level : Type := INFO | WARNING | ERROR | CRITICAL.

Definition log_record : Type := (level * string)%type.

(** ** Series operations *)

Definition is_zero (q : Q) : bool := Qeq_bool q 0.

(** [Series.replace(0, np.nan)] *)
Definition replace_0_nan (s : Series) : Series :=
  map (fun c => match c with
                | Num q => if is_zero q then NaN else Num q
                | _ => c
                end) s.

Definition fill_cell (c : cell) : cell :=
  match c with NaN => Num 0 | _ => c end.

(** [df.fillna(0, inplace=True)] *)
Definition fillna_0 (df : DataFrame) : DataFrame :=
  mkDataFrame (index df)
              (map (fun c => (fst c, map fill_cell (snd c))) (columns df)).

(** [a - b] on two cells: a string operand is a TypeError, a null operand
    gives null. *)
Definition cell_sub (a b : cell) : result cell :=
  match a, b with
  | Str _, _ | _, Str _ =>
      Raise (TypeError "unsupported operand type(s) for -")
  | Num x, Num y => Ok (Num (x - y))
  | _, _ => Ok NaN
  end.

(** [a / b] on two cells.  A zero divisor is the case the source guards
    against: float64 division gives an infinity there and division of
    Python numbers raises; the model has one branch for it. *)
Definition cell_truediv (a b : cell) : result cell :=
  match a, b with
  | Str _, _ | _, Str _ =>
      Raise (TypeError "unsupported operand type(s) for /")
  | Num x, Num y => if is_zero y then Raise ZeroDivisionError
                    else Ok (Num (x / y))
  | _, _ => Ok NaN
  end.

(** Element-wise operation on two columns of one frame (they share its
    index); the first failing element raises. *)
Fixpoint elementwise (f : cell -> cell -> result cell) (a b : Series)
  : result Series :=
  match a, b with
  | x :: a', y :: b' =>
      match f x y with
      | Ok z => match elementwise f a' b' with
                | Ok r => Ok (z :: r)
                | Raise e => Raise e
                end
      | Raise e => Raise e
      end
  | _, _ => Ok []
  end.

Definition sub : Series -> Series -> result Series := elementwise cell_sub.
Definition truediv : Series -> Series -> result Series :=
  elementwise cell_truediv.

(** ** The object store

    A DataFrame is a mutable object: a variable holds a reference to it. *)

Definition ref := nat.
Definition store := ref -> DataFrame.

Definition upd (h : store) (r : ref) (df : DataFrame) : store :=
  fun r' => if (r' =? r)%nat then df else h r'.

(** Statements that act on one object: the state is the object's contents,
    which an exception leaves as they are at the point of failure. *)
Definition M (A : Type) : Type := DataFrame -> DataFrame * result A.

Definition ret {A} (a : A) : M A := fun df => (df, Ok a).

Definition bind {A B} (m : M A) (k : A -> M B) : M B :=
  fun df => match m df with
            | (df', Ok a) => k a df'
            | (df', Raise e) => (df', Raise e)
            end.

Notation "x <- m ;; k" := (bind m (fun x => k))
  (at level 61, m at next level, right associativity).
Notation "m ;; k" := (bind m (fun _ => k))
  (at level 61, right associativity).

(** [df[c]] *)
Definition getitem (c : string) : M Series :=
  fun df => match getcol c df with
            | Some s => (df, Ok s)
            | None => (df, Raise (KeyError c))
            end.

(** [df[c] = s] *)
Definition setitem (c : string) (s : Series) : M unit :=
  fun df => (setcol c s df, Ok tt).

Definition fillna_inplace : M unit := fun df => (fillna_0 df, Ok tt).

Definition lift {A} (r : result A) : M A := fun df => (df, r).

(** ** The Enricher *)

Section Enricher.

(** The number parser of [pd.to_numeric]: the number a string denotes, if it
    denotes one. *)
Variable parse_number : string -> option Q.

(** [pd.to_numeric(s, errors='coerce')] *)
Definition to_numeric (s : Series) : Series :=
  map (fun c => match c with
                | Str t => match parse_number t with
                           | Some q => Num q
                           | None => NaN
                           end
                | _ => c
                end) s.

(** The body of the [try] block of [clean_vendor_summary]. *)
Definition try_body : M unit :=
  v <- getitem "Volume" ;;
  setitem "Volume" (to_numeric v) ;;
  fillna_inplace ;;
  tsd <- getitem "total_sales_dollars" ;;
  td <- getitem "total_dollars" ;;
  gp <- lift (sub tsd td) ;;
  setitem "gross_profit" gp ;;
  gp' <- getitem "gross_profit" ;;
  tsd' <- getitem "total_sales_dollars" ;;
  gm <- lift (truediv gp' (replace_0_nan tsd')) ;;
  setitem "gross_margin" gm ;;
  tsq <- getitem "total_sales_quantity" ;;
  tq <- getitem "total_quantity" ;;
  st <- lift (truediv tsq (replace_0_nan tq)) ;;
  setitem "stock_turnover" st ;;
  tsd'' <- getitem "total_sales_dollars" ;;
  td' <- getitem "total_dollars" ;;
  spr <- lift (truediv tsd'' (replace_0_nan td')) ;;
  setitem "sales_purchase_ratio" spr.

(** The record an exception handler of [clean_vendor_summary] logs. *)
Definition handler (e : exn) : log_record :=
  match e with
  | KeyError _ =>
      (ERROR, ("Missing expected column in DataFrame: " ++ str e)%string)
  | _ =>
      (ERROR,
       ("An unexpected error occurred during cleaning: " ++ str e)%string)
  end.

(** [clean_vendor_summary(df)]: the reference returned, the store after the
    call and the records logged. *)
Definition clean_vendor_summary (df : ref) (h : store)
  : ref * store * list log_record :=
  if empty (h df) then
    (df, h,
     [(WARNING, "Input DataFrame is empty, skipping cleaning process."%string)])
  else
    match try_body (h df) with
    | (d, Ok _) => (df, upd h df d, [])
    | (d, Raise e) => (df, upd h df d, [handler e])
    end.

End Enricher.

(** ** The source tables

    One record type per table the query reads, with the columns it reads.
    Vendor numbers and brands are integers, amounts are numbers, names and
    descriptions are text; the catalog volume is stored as it comes (text,
    number or NULL). *)

Module purchases.
Record row : Type := mk {
    VendorNumber : Z;
    VendorName : string;
    Brand : Z;
    PurchasePrice : Q;
    description : string;
    Quantity : Q;
    Dollars : Q
  }.
End purchases.

Module purchase_prices.
Record row : Type := mk {
    Brand : Z;
    Volume : cell;
    Price : Q
  }.
End purchase_prices.

Module sales.
Record row : Type := mk {
    VendorNo : Z;
    Brand : Z;
    SalesQuantity : Q;
    SalesDollars : Q;
    SalesPrice : Q;
    ExciseTax : Q
  }.
End sales.

Module vendor_invoice.
Record row : Type := mk {
    VendorNumber : Z;
    Freight : Q
  }.
End vendor_invoice.

(** A table the store does not have (or has without a column the query
    names) is [None]. *)
Record Database : Type := mkDatabase {
  tbl_purchases : option (list purchases.row);
  tbl_purchase_prices : option (list purchase_prices.row);
  tbl_sales : option (list sales.row);
  tbl_vendor_invoice : option (list vendor_invoice.row)
}.

Record Connection : Type := mkConnection {
  closed : bool;
  database : Database
}.

(** ** The operators of the query *)

(** [SUM] over the rows of a group (a group is never empty). *)
Definition SUM (l : list Q) : Q := fold_right Qplus 0 l.

Definition Qlt_bool (x y : Q) : bool :=
  match x ?= y with Lt => true | _ => false end.

Section GroupBy.
Variables A K : Type.
Variable eqb : K -> K -> bool.
Variable key : A -> K.

  (** The first row of every distinct key, in the order the keys are first
      seen. *)
Fixpoint first_seen (l : list A) : list A :=
    match l with
    | [] => []
    | a :: t =>
        a :: filter (fun b => negb (eqb (key b) (key a))) (first_seen t)
    end.

  (** [GROUP BY key]: one group per distinct key, given as its first row
      (the row bare columns are read from) and all its rows. *)
Definition group_by (l : list A) : list (A * list A) :=
    map (fun a => (a, filter (fun b => eqb (key b) (key a)) l))
        (first_seen l).
End GroupBy.

(** [a JOIN b ON on] *)
Definition inner_join (A B : Type) (on : A -> B -> bool)
           (l : list A) (r : list B) : list (A * B) :=
  flat_map (fun a => map (pair a) (filter (on a) r)) l.

(** [a LEFT JOIN b ON on] *)
Definition left_join (A B : Type) (on : A -> B -> bool)
           (l : list A) (r : list B) : list (A * option B) :=
  flat_map (fun a => match filter (on a) r with
                     | [] => [(a, None)]
                     | m => map (fun b => (a, Some b)) m
                     end) l.

Section OrderBy.
Variable A : Type.
Variable leb : A -> A -> bool.

Fixpoint insert (a : A) (l : list A) : list A :=
    match l with
    | [] => [a]
    | b :: t => if leb a b then a :: b :: t else b :: insert a t
    end.

  (** [ORDER BY], as a stable insertion sort. *)
Fixpoint order_by (l : list A) : list A :=
    match l with
    | [] => []
    | a :: t => insert a (order_by t)
    end.
End OrderBy.

(** ** The three stages of the query *)

Module freightsummary.
Record row : Type := mk {
    vendorNumber : Z;
    freight_cost : Q
  }.
End freightsummary.

Module purchase_summary.
Record row : Type := mk {
    VendorNumber : Z;
    VendorName : string;
    Brand : Z;
    PurchasePrice : Q;
    description : string;
    Volume : cell;
    actual_price : Q;
    total_quantity : Q;
    total_dollars : Q
  }.
End purchase_summary.

Module sales_summary.
Record row : Type := mk {
    VendorNo : Z;
    Brand : Z;
    total_sales_quantity : Q;
    total_sales_dollars : Q;
    total_sales_price : Q;
    total_excise_tax : Q
  }.
End sales_summary.

(** [WITH freightsummary AS (...)] *)
Definition freightsummary_cte (vi : list vendor_invoice.row)
  : list freightsummary.row :=
  map (fun g => freightsummary.mk
                  (vendor_invoice.VendorNumber (fst g))
                  (SUM (map vendor_invoice.Freight (snd g))))
      (group_by Z.eqb vendor_invoice.VendorNumber vi).

(** The grouping key of the purchase stage. *)
Definition key3 (p : purchases.row) : Z * string * Z :=
  (purchases.VendorNumber p, purchases.VendorName p, purchases.Brand p).

Definition key3_eqb (x y : Z * string * Z) : bool :=
  let '(v, n, b) := x in
  let '(v', n', b') := y in
  (v =? v')%Z && String.eqb n n' && (b =? b')%Z.

(** [purchases p JOIN purchase_prices pp ON p.Brand = pp.Brand
     WHERE p.PurchasePrice > 0] *)
Definition purchase_rows (ps : list purchases.row)
           (pps : list purchase_prices.row)
  : list (purchases.row * purchase_prices.row) :=
  filter (fun x => Qlt_bool 0 (purchases.PurchasePrice (fst x)))
         (inner_join
            (fun p pp => (purchases.Brand p =? purchase_prices.Brand pp)%Z)
            ps pps).

(** [purchase_summary AS (...)]: the bare columns come from the first row of
    the group. *)
Definition purchase_summary_cte (ps : list purchases.row)
           (pps : list purchase_prices.row) : list purchase_summary.row :=
  map (fun g =>
         let '(p, pp) := fst g in
         purchase_summary.mk
           (purchases.VendorNumber p) (purchases.VendorName p)
           (purchases.Brand p) (purchases.PurchasePrice p)
           (purchases.description p)
           (purchase_prices.Volume pp) (purchase_prices.Price pp)
           (SUM (map (fun x => purchases.Quantity (fst x)) (snd g)))
           (SUM (map (fun x => purchases.Dollars (fst x)) (snd g))))
      (group_by key3_eqb (fun x => key3 (fst x)) (purchase_rows ps pps)).

Definition key2_eqb (x y : Z * Z) : bool :=
  (fst x =? fst y)%Z && (snd x =? snd y)%Z.

(** [sales_summary AS (...)] *)
Definition sales_summary_cte (ss : list sales.row)
  : list sales_summary.row :=
  map (fun g =>
         sales_summary.mk
           (sales.VendorNo (fst g)) (sales.Brand (fst g))
           (SUM (map sales.SalesQuantity (snd g)))
           (SUM (map sales.SalesDollars (snd g)))
           (SUM (map sales.SalesPrice (snd g)))
           (SUM (map sales.ExciseTax (snd g))))
      (group_by key2_eqb (fun s => (sales.VendorNo s, sales.Brand s)) ss).

(** A row of the final [SELECT], before projection. *)
Definition joined_row : Type :=
  (purchase_summary.row * option sales_summary.row
   * option freightsummary.row)%type.

Definition row_p (r : joined_row) : purchase_summary.row := fst (fst r).
Definition row_s (r : joined_row) : option sales_summary.row :=
  snd (fst r).
Definition row_f (r : joined_row) : option freightsummary.row := snd r.

(** [ORDER BY p.VendorNumber, p.Brand] *)
Definition order_leb (x y : joined_row) : bool :=
  (purchase_summary.VendorNumber (row_p x)
   <? purchase_summary.VendorNumber (row_p y))%Z
  || ((purchase_summary.VendorNumber (row_p x)
       =? purchase_summary.VendorNumber (row_p y))%Z
      && (purchase_summary.Brand (row_p x)
          <=? purchase_summary.Brand (row_p y))%Z).

(** The rows of [sql_query], in the order the cursor yields them. *)
Definition sql_query (ps : list purchases.row)
           (pps : list purchase_prices.row) (ss : list sales.row)
           (vi : list vendor_invoice.row) : list joined_row :=
  order_by order_leb
    (left_join
       (fun (x : purchase_summary.row * option sales_summary.row) f =>
          (purchase_summary.VendorNumber (fst x)
           =? freightsummary.vendorNumber f)%Z)
       (left_join
          (fun p s =>
             (purchase_summary.VendorNumber p =? sales_summary.VendorNo s)%Z
             && (purchase_summary.Brand p =? sales_summary.Brand s)%Z)
          (purchase_summary_cte ps pps)
          (sales_summary_cte ss))
       (freightsummary_cte vi)).

Definition num_Z (z : Z) : cell := Num (inject_Z z).

(** A column of a left-joined stage: NULL where the row had no match. *)
Definition nullable (A : Type) (f : A -> Q) (o : option A) : cell :=
  match o with Some a => Num (f a) | None => NaN end.

(** The result set as a DataFrame: the columns of the final [SELECT], in
    its order. *)
Definition to_frame (rows : list joined_row) : DataFrame :=
  let p (f : purchase_summary.row -> cell) := map (fun r => f (row_p r)) rows in
  let s (f : sales_summary.row -> Q) :=
    map (fun r => nullable f (row_s r)) rows in
  mkDataFrame (List.length rows)
    [ ("VendorNumber"%string,
        p (fun x => num_Z (purchase_summary.VendorNumber x)));
      ("VendorName"%string, p (fun x => Str (purchase_summary.VendorName x)));
      ("Brand"%string, p (fun x => num_Z (purchase_summary.Brand x)));
      ("PurchasePrice"%string,
        p (fun x => Num (purchase_summary.PurchasePrice x)));
      ("description"%string,
        p (fun x => Str (purchase_summary.description x)));
      ("Volume"%string, p purchase_summary.Volume);
      ("actual_price"%string,
        p (fun x => Num (purchase_summary.actual_price x)));
      ("total_quantity"%string,
        p (fun x => Num (purchase_summary.total_quantity x)));
      ("total_dollars"%string,
        p (fun x => Num (purchase_summary.total_dollars x)));
      ("total_sales_quantity"%string, s sales_summary.total_sales_quantity);
      ("total_sales_dollars"%string, s sales_summary.total_sales_dollars);
      ("total_sales_price"%string, s sales_summary.total_sales_price);
      ("total_excise_tax"%string, s sales_summary.total_excise_tax);
      ("freight_cost"%string,
        map (fun r => nullable freightsummary.freight_cost (row_f r)) rows) ].

(** [pd.read_sql_query(sql_query, conn)]: the query fails on a closed
    connection and on a store that lacks one of its tables. *)
Definition read_sql_query (conn : Connection) : result DataFrame :=
  if closed conn then
    Raise (DatabaseError "Cannot operate on a closed database.")
  else
    match tbl_vendor_invoice (database conn), tbl_purchases (database conn),
          tbl_purchase_prices (database conn), tbl_sales (database conn) with
    | Some vi, Some ps, Some pps, Some ss =>
        Ok (to_frame (sql_query ps pps ss vi))
    | None, _, _, _ => Raise (DatabaseError "no such table: vendor_invoice")
    | _, None, _, _ => Raise (DatabaseError "no such table: purchases")
    | _, _, None, _ =>
        Raise (DatabaseError "no such table: purchase_prices")
    | _, _, _, None => Raise (DatabaseError "no such table: sales")
    end.

(** ** The Aggregator *)

(** [create_vendor_summary(conn)]: the table returned and the records
    logged. *)
Definition create_vendor_summary (conn : Connection)
  : DataFrame * list log_record :=
  let attempt :=
    (INFO, "Attempting to create vendor summary DataFrame."%string) in
  match read_sql_query conn with
  | Ok vendor_sales_summary =>
      (vendor_sales_summary,
       [attempt;
        (INFO, "Vendor summary DataFrame created successfully."%string)])
  | Raise e =>
      (DataFrame_new,
       [attempt;
        (ERROR, ("Error executing SQL query: " ++ str e)%string)])
  end.

(** ** Vocabulary of the properties *)

(** The columns [clean_vendor_summary] reads. *)
Definition expected_columns : list string :=
  [ "Volume"; "total_sales_dollars"; "total_dollars";
    "total_sales_quantity"; "total_quantity" ]%string.



Definition no_null (s : Series) : Prop := Forall (fun c => isna c = false) s.

Definition zero_at (df : DataFrame) (c : string) (i : nat) : Prop :=
  exists q, iat df c i = Some (Num q) /\ q == 0.

(** The table after the first two statements of the [try] block: the volume
    coerced, then every null filled. *)
Definition coerce_fill (parse_number : string -> option Q) (df : DataFrame)
  : DataFrame :=
  match getcol "Volume" df with
  | Some v => fillna_0 (setcol "Volume" (to_numeric parse_number v) df)
  | None => df
  end.

(** A number parser for the examples: unsigned decimal integers. *)
Definition digit (a : Ascii.ascii) : option Z :=
  let n := Ascii.nat_of_ascii a in
  if ((48 <=? n) && (n <=? 57))%nat then Some (Z.of_nat (n - 48)) else None.

Fixpoint digits (acc : Z) (s : string) : option Z :=
  match s with
  | EmptyString => Some acc
  | String a t => match digit a with
                  | Some d => digits (10 * acc + d) t
                  | None => None
                  end
  end.

Definition parse_digits (s : string) : option Q :=
  match s with
  | EmptyString => None
  | _ => option_map inject_Z (digits 0 s)
  end.

(** The columns it computes with. *)
Definition numeric_columns : list string :=
  [ "total_sales_dollars"; "total_dollars";
    "total_sales_quantity"; "total_quantity" ]%string.

Definition has_str (s : Series) : Prop := exists t, In (Str t) s.

(** The columns [clean_vendor_summary] adds. *)
Definition derived_columns : list string :=
  [ "gross_profit"; "gross_margin"; "stock_turnover";
    "sales_purchase_ratio" ]%string.

(** ** Example tables *)

(** A store whose objects all hold [df]. *)
Definition store_with (df : DataFrame) : store := fun _ => df.

(** What the caller of [clean_vendor_summary] sees afterwards through the
    reference it passed, and the records logged. *)
Definition run_clean (parse_number : string -> option Q) (df : DataFrame)
  : DataFrame * list log_record :=
  let '(r, h, log) := clean_vendor_summary parse_number 0%nat (store_with df) in
  (h 0%nat, log).

(** Two summary rows: a pair with sales and a pair without sales rows. *)
Definition df_two_pairs : DataFrame :=
  mkDataFrame 2
    [ ("Volume", [Str "750"; Str "Unknown"]);
      ("total_quantity", [Num 5; Num 3]);
      ("total_dollars", [Num 50; Num 30]);
      ("total_sales_quantity", [Num 4; NaN]);
      ("total_sales_dollars", [Num 48; NaN]) ]%string.



(** ** Vocabulary of the Aggregator's properties *)

(** The grouping key of an output row. *)
Definition row_key (r : joined_row) : Z * string * Z :=
  (purchase_summary.VendorNumber (row_p r),
   purchase_summary.VendorName (row_p r),
   purchase_summary.Brand (row_p r)).

(** A purchase row that reaches the purchase stage: its price is positive
    and its brand has a price reference. *)
Definition qualifies (pps : list purchase_prices.row) (p : purchases.row)
  : Prop :=
  0 < purchases.PurchasePrice p
  /\ exists pp, In pp pps /\ purchase_prices.Brand pp = purchases.Brand p.

Definition qualifies_b (pps : list purchase_prices.row) (p : purchases.row)
  : bool :=
  Qlt_bool 0 (purchases.PurchasePrice p)
  && existsb (fun pp => (purchase_prices.Brand pp =? purchases.Brand p)%Z)
             pps.



(** An open connection to a store that has the four tables. *)
Definition connect (ps : list purchases.row) (pps : list purchase_prices.row)
           (ss : list sales.row) (vi : list vendor_invoice.row)
  : Connection :=
  mkConnection false (mkDatabase (Some ps) (Some pps) (Some ss) (Some vi)).

(** ** Example stores *)



(** Vendor 2 sells brand 10 and has freight; vendor 1 bought brands 10 and
    11 (the latter at price 0) and has neither sales nor freight. *)
Definition purchases_example : list purchases.row :=
  [ purchases.mk 2 "ZED" 10 4 "gin" 1 4;
    purchases.mk 1 "ACME" 10 5 "gin" 2 10;
    purchases.mk 1 "ACME" 11 0 "rum" 3 0;
    purchases.mk 1 "ACME" 10 5 "gin" 3 15 ]%string.

Definition prices_example : list purchase_prices.row :=
  [ purchase_prices.mk 10 (Str "750") 7;
    purchase_prices.mk 11 (Str "Unknown") 9 ].

Definition sales_example : list sales.row :=
  [ sales.mk 2 10 1 6 6 (1 # 2); sales.mk 2 10 2 12 6 1 ].

Definition freight_example : list vendor_invoice.row :=
  [ vendor_invoice.mk 2 3; vendor_invoice.mk 2 4 ].

(** ** The driver

    The [__main__] block.  Its world is what [sqlite3.connect] finds and
    whether the output file can be written; the text of the file is not
    modelled, a written file is the table it holds. *)

(** [sqlite3.connect(db_path)]: a [sqlite3.Error], or a connection to the
    store. *)
Inductive connecting : Type :=
| ConnectError (msg : string)
| Connected (db : Database).

Record World : Type := mkWorld {
  sqlite3_connect : connecting;
  to_csv_error : option string       (* the error of [to_csv], if it fails *)
}.

Record Run : Type := mkRun {
  run_csv : option DataFrame;        (* vendor_sales_summary.csv, if written *)
  run_stdout : list string;
  run_log : list log_record;
  run_closed : bool                  (* [conn.close()] was called *)
}.

Definition saved_message : string :=
  "Vendor summary saved to vendor_sales_summary.csv successfully.".

Definition closing_record : log_record :=
  (INFO, "Database connection closed."%string).

(** A store in which the table just created is the object [0]. *)
Definition fresh_store (df : DataFrame) : store :=
  upd (fun _ => DataFrame_new) 0%nat df.

Definition main (parse_number : string -> option Q) (w : World) : Run :=
  match sqlite3_connect w with
  | ConnectError msg =>
      mkRun None []
            [(CRITICAL, ("Database connection error: " ++ msg)%string)]
            false
  | Connected db =>
      let conn := mkConnection false db in
      let '(vendor_sales_summary, log1) := create_vendor_summary conn in
      if negb (empty vendor_sales_summary) then
        let '(cleaned_summary, h, log2) :=
          clean_vendor_summary parse_number 0%nat
                               (fresh_store vendor_sales_summary) in
        match to_csv_error w with
        | None =>
            mkRun (Some (h cleaned_summary)) [saved_message]
                  (log1 ++ log2 ++ [(INFO, saved_message); closing_record])
                  true
        | Some msg =>
            mkRun None []
                  (log1 ++ log2
                   ++ [(CRITICAL,
                        ("An unhandled error occurred: " ++ msg)%string);
                       closing_record])
                  true
        end
      else
        mkRun None []
              (log1 ++ [(ERROR, "No data to process. Exiting."%string);
                        closing_record])
              true
  end.

(** ** Vocabulary of the further properties *)

(** An aggregate over the rows a left join matched: NULL when there is
    none. *)
Definition aggregate (A : Type) (f : A -> Q) (l : list A) : cell :=
  match l with
  | [] => NaN
  | _ => Num (SUM (map f l))
  end.

(** The sales rows of a (vendor, brand) pair. *)
Definition sales_of (v b : Z) (ss : list sales.row) : list sales.row :=
  filter (fun s => key2_eqb (sales.VendorNo s, sales.Brand s) (v, b)) ss.

(** The freight rows of a vendor. *)
Definition freight_of (v : Z) (vi : list vendor_invoice.row)
  : list vendor_invoice.row :=
  filter (fun f => (vendor_invoice.VendorNumber f =? v)%Z) vi.

(** The qualifying purchase rows of a group. *)
Definition purchases_of (k : Z * string * Z) (ps : list purchases.row)
           (pps : list purchase_prices.row) : list purchases.row :=
  filter (fun p => key3_eqb (key3 p) k) (filter (qualifies_b pps) ps).

Definition labels (df : DataFrame) : list string := map fst (columns df).

(** A label joins a list of labels at its end, unless it is there. *)
Definition add_label (ls : list string) (c : string) : list string :=
  if existsb (fun c' => String.eqb c' c) ls then ls else ls ++ [c].



(** * Properties *)

(** ** Columns of a frame *)

Lemma assoc_assign (c0 c : string) (s : Series) l :
  assoc c (assign c0 s l) = if String.eqb c0 c then Some s else assoc c l.
Proof.
  induction l as [|[c1 s1] t IH]; simpl.
  - destruct (String.eqb c0 c); reflexivity.
  - destruct (String.eqb c1 c0) eqn:E1; simpl.
    + apply String.eqb_eq in E1; subst c1.
      destruct (String.eqb c0 c); reflexivity.
    + rewrite IH.
      destruct (String.eqb c1 c) eqn:E2; [|reflexivity].
      apply String.eqb_eq in E2; subst c1.
      rewrite String.eqb_sym, E1. reflexivity.
Qed.

Lemma getcol_setcol (c0 c : string) (s : Series) df :
  getcol c (setcol c0 s df)
  = if String.eqb c0 c then Some s else getcol c df.
Proof. apply assoc_assign. Qed.

Lemma getcol_fillna (c : string) df :
  getcol c (fillna_0 df) = option_map (map fill_cell) (getcol c df).
Proof.
  unfold getcol, fillna_0; simpl.
  induction (columns df) as [|[c1 s1] t IH]; simpl; [reflexivity|].
  destruct (String.eqb c1 c); [reflexivity | exact IH].
Qed.

Lemma getcol_In (c : string) (s : Series) df :
  getcol c df = Some s -> In (c, s) (columns df).
Proof.
  unfold getcol. induction (columns df) as [|[c1 s1] t IH]; simpl.
  - discriminate.
  - destruct (String.eqb c1 c) eqn:E.
    + apply String.eqb_eq in E. intros [= ->]. subst. now left.
    + intros H. right. auto.
Qed.

Lemma wf_getcol (c : string) (s : Series) df :
  wf df -> getcol c df = Some s -> List.length s = index df.
Proof.
  intros W H. apply getcol_In in H.
  unfold wf in W. rewrite Forall_forall in W. apply (W _ H).
Qed.

Lemma wf_setcol (c : string) (s : Series) df :
  wf df -> List.length s = index df -> wf (setcol c s df).
Proof.
  unfold wf, setcol; simpl. intros W L.
  induction W as [|[c1 s1] t H1 W IH]; simpl.
  - constructor; [exact L | constructor].
  - destruct (String.eqb c1 c); constructor; auto.
Qed.

Lemma wf_fillna df : wf df -> wf (fillna_0 df).
Proof.
  unfold wf, fillna_0; simpl. intros W.
  induction W as [|[c1 s1] t H1 W IH]; simpl; constructor; auto.
  simpl in *. now rewrite length_map.
Qed.

Lemma fill_cell_notna c : isna (fill_cell c) = false.
Proof. destruct c; reflexivity. Qed.

Lemma no_null_fill (s : Series) : no_null (map fill_cell s).
Proof.
  unfold no_null. apply Forall_forall. intros x Hx.
  apply in_map_iff in Hx as (y & <- & _). apply fill_cell_notna.
Qed.

Lemma no_null_nth (s : Series) i c :
  no_null s -> nth_error s i = Some c -> c <> NaN.
Proof.
  intros H Hn ->. apply nth_error_In in Hn.
  unfold no_null in H. rewrite Forall_forall in H.
  specialize (H _ Hn). discriminate.
Qed.

(** ** Element-wise operations *)

Lemma elementwise_nth f (a b r : Series) :
  elementwise f a b = Ok r ->
  forall i z, nth_error r i = Some z <->
              exists x y, nth_error a i = Some x /\ nth_error b i = Some y
                          /\ f x y = Ok z.
Proof.
  revert b r. induction a as [|x a IH]; intros b r H i z.
  - simpl in H. injection H as <-. split.
    + destruct i; discriminate.
    + intros (x & y & Hx & _). destruct i; discriminate.
  - destruct b as [|y b].
    + simpl in H. injection H as <-. split.
      * destruct i; discriminate.
      * intros (x' & y' & _ & Hy & _). destruct i; discriminate.
    + simpl in H. destruct (f x y) as [z0|e] eqn:F; [|discriminate].
      destruct (elementwise f a b) as [r0|e] eqn:E; [|discriminate].
      injection H as <-. destruct i as [|i]; simpl.
      * split.
        -- intros [= <-]. eauto.
        -- intros (x' & y' & [= <-] & [= <-] & F'). congruence.
      * apply IH. exact E.
Qed.

Lemma elementwise_length f (a b r : Series) :
  elementwise f a b = Ok r ->
  List.length r = Nat.min (List.length a) (List.length b).
Proof.
  revert b r. induction a as [|x a IH]; intros b r H.
  - simpl in H. injection H as <-. reflexivity.
  - destruct b as [|y b].
    + simpl in H. injection H as <-. reflexivity.
    + simpl in H. destruct (f x y) as [z0|e]; [|discriminate].
      destruct (elementwise f a b) as [r0|e] eqn:E; [|discriminate].
      injection H as <-. simpl. f_equal. apply IH. exact E.
Qed.

(** An element-wise operation raises what one of its cells raises. *)
Lemma elementwise_Raise f (a b : Series) e :
  elementwise f a b = Raise e ->
  exists x y, In x a /\ In y b /\ f x y = Raise e.
Proof.
  revert b. induction a as [|x a IH]; intros b H.
  - discriminate.
  - destruct b as [|y b]; [discriminate|].
    simpl in H. destruct (f x y) as [z0|e0] eqn:F.
    + destruct (elementwise f a b) as [r0|e1] eqn:E; [discriminate|].
      injection H as ->. destruct (IH _ E) as (x' & y' & ? & ? & ?).
      exists x', y'. simpl. auto.
    + injection H as ->. exists x, y. simpl. auto.
Qed.

Lemma replace_0_nan_nth (s : Series) i :
  nth_error (replace_0_nan s) i
  = option_map (fun c => match c with
                         | Num q => if is_zero q then NaN else Num q
                         | _ => c
                         end) (nth_error s i).
Proof. unfold replace_0_nan. apply nth_error_map. Qed.

(** The guard: no cell of a guarded divisor is a zero. *)
Lemma replace_0_nan_guard (s : Series) q :
  In (Num q) (replace_0_nan s) -> is_zero q = false.
Proof.
  unfold replace_0_nan. intros H. apply in_map_iff in H as (c & Hc & _).
  destruct c as [|q'|t]; try discriminate.
  destruct (is_zero q') eqn:Z; [discriminate|]. now injection Hc as <-.
Qed.

Lemma truediv_guarded_no_zero_division (a b : Series) :
  truediv a (replace_0_nan b) <> Raise ZeroDivisionError.
Proof.
  intros H. apply elementwise_Raise in H as (x & y & _ & Hy & F).
  destruct x as [|p|t], y as [|q|u]; simpl in F; try discriminate.
  apply replace_0_nan_guard in Hy. rewrite Hy in F. discriminate.
Qed.

Lemma sub_no_zero_division (a b : Series) :
  sub a b <> Raise ZeroDivisionError.
Proof.
  intros H. apply elementwise_Raise in H as (x & y & _ & _ & F).
  destruct x as [|p|t], y as [|q|u]; simpl in F; discriminate.
Qed.


Lemma no_null_In (s : Series) c : no_null s -> In c s -> c <> NaN.
Proof.
  unfold no_null. rewrite Forall_forall. intros H Hc ->.
  specialize (H _ Hc). discriminate.
Qed.

(** Subtracting columns without nulls gives a column without nulls. *)
Lemma sub_no_null (a b r : Series) :
  sub a b = Ok r -> no_null a -> no_null b -> no_null r.
Proof.
  intros H Na Nb. apply Forall_forall. intros z Hz.
  apply In_nth_error in Hz as (i & Hi).
  apply (elementwise_nth _ _ _ H) in Hi as (x & y & Hx & Hy & F).
  apply nth_error_In in Hx, Hy.
  apply (no_null_In Na) in Hx. apply (no_null_In Nb) in Hy.
  destruct x, y; simpl in F; try congruence; now injection F as <-.
Qed.

(** Row by row, on columns of equal length without nulls. *)
Lemma sub_spec (a b r : Series) i :
  sub a b = Ok r -> List.length a = List.length b ->
  no_null a -> no_null b -> (i < List.length b)%nat ->
  exists x y, nth_error a i = Some (Num x) /\ nth_error b i = Some (Num y)
              /\ nth_error r i = Some (Num (x - y)).
Proof.
  intros H L Na Nb Hi.
  destruct (nth_error a i) as [x|] eqn:Hx;
    [|apply nth_error_None in Hx; lia].
  destruct (nth_error b i) as [y|] eqn:Hy;
    [|apply nth_error_None in Hy; lia].
  destruct (nth_error r i) as [z|] eqn:Hz.
  2:{ apply nth_error_None in Hz.
      rewrite (elementwise_length _ _ _ H) in Hz. lia. }
  apply (elementwise_nth _ _ _ H) in Hz as (x' & y' & Hx' & Hy' & F).
  assert (x' = x) by congruence. assert (y' = y) by congruence. subst.
  pose proof (no_null_In Na (nth_error_In _ _ Hx)).
  pose proof (no_null_In Nb (nth_error_In _ _ Hy)).
  destruct x as [|p|t], y as [|q|u]; simpl in F; try congruence.
  injection F as <-. eauto.
Qed.

Lemma truediv_guard_spec (a b r : Series) i :
  truediv a (replace_0_nan b) = Ok r -> List.length a = List.length b ->
  no_null a -> no_null b -> (i < List.length b)%nat ->
  exists x q, nth_error a i = Some (Num x) /\ nth_error b i = Some (Num q)
              /\ nth_error r i
                 = Some (if is_zero q then NaN else Num (x / q)).
Proof.
  intros H L Na Nb Hi.
  destruct (nth_error a i) as [x|] eqn:Hx;
    [|apply nth_error_None in Hx; lia].
  destruct (nth_error b i) as [y|] eqn:Hy;
    [|apply nth_error_None in Hy; lia].
  destruct (nth_error r i) as [z|] eqn:Hz.
  2:{ apply nth_error_None in Hz.
      rewrite (elementwise_length _ _ _ H) in Hz.
      unfold replace_0_nan in Hz. rewrite length_map in Hz. lia. }
  apply (elementwise_nth _ _ _ H) in Hz as (x' & y' & Hx' & Hy' & F).
  rewrite replace_0_nan_nth, Hy in Hy'. simpl in Hy'.
  assert (x' = x) by congruence. subst x'. injection Hy' as <-.
  pose proof (no_null_In Na (nth_error_In _ _ Hx)).
  pose proof (no_null_In Nb (nth_error_In _ _ Hy)).
  destruct x as [|p|t], y as [|q|u]; simpl in F; try congruence.
  exists p, q. destruct (is_zero q) eqn:Z; simpl in F.
  - now injection F as <-.
  - rewrite Z in F. now injection F as <-.
Qed.

(** Only a string cell makes the arithmetic of the block raise. *)
Lemma sub_Raise_str (a b : Series) e :
  sub a b = Raise e -> has_str a \/ has_str b.
Proof.
  intros H. apply elementwise_Raise in H as (x & y & Hx & Hy & F).
  destruct x as [|p|t]; [| |left; exists t; exact Hx];
    (destruct y as [|q|u]; [| |right; exists u; exact Hy]);
    discriminate.
Qed.

Lemma replace_0_nan_str (s : Series) t :
  In (Str t) (replace_0_nan s) -> In (Str t) s.
Proof.
  unfold replace_0_nan. intros H. apply in_map_iff in H as (c & Hc & Hin).
  destruct c as [|q|u]; try discriminate.
  - destruct (is_zero q); discriminate.
  - now injection Hc as ->.
Qed.

Lemma truediv_guarded_Raise_str (a b : Series) e :
  truediv a (replace_0_nan b) = Raise e -> has_str a \/ has_str b.
Proof.
  intros H. apply elementwise_Raise in H as (x & y & Hx & Hy & F).
  destruct x as [|p|t]; [| |left; exists t; exact Hx];
    (destruct y as [|q|u];
     [| |right; exists u; now apply replace_0_nan_str]);
    try discriminate.
  apply replace_0_nan_guard in Hy. simpl in F. rewrite Hy in F.
  discriminate.
Qed.

Lemma sub_no_str (a b r : Series) : sub a b = Ok r -> ~ has_str r.
Proof.
  intros H (t & Ht). apply In_nth_error in Ht as (i & Hi).
  apply (elementwise_nth _ _ _ H) in Hi as (x & y & _ & _ & F).
  destruct x, y; simpl in F; discriminate.
Qed.

Lemma fill_cell_str (s : Series) : has_str (map fill_cell s) -> has_str s.
Proof.
  intros (t & H). apply in_map_iff in H as (c & Hc & Hin).
  destruct c; try discriminate. injection Hc as ->. now exists t.
Qed.

(** ** Running the [try] block *)

Section EnricherProperties.

Variable parse_number : string -> option Q.

(** One statement of the block at a time: split on the column looked up or
    on the outcome of the arithmetic, then simplify the lookups through the
    assignments made so far. *)
Ltac simp H :=
  repeat first
    [ progress rewrite getcol_setcol in H
    | progress simpl String.eqb in H
    | progress cbv beta iota zeta in H
    | match goal with E : getcol _ _ = _ |- _ => rewrite E in H end ].

Ltac step H :=
  match type of H with
  | context [match getcol ?c ?d with _ => _ end] =>
      let E := fresh "G" in destruct (getcol c d) eqn:E
  | context [match sub ?a ?b with _ => _ end] =>
      let E := fresh "A" in destruct (sub a b) eqn:E
  | context [match truediv ?a ?b with _ => _ end] =>
      let E := fresh "A" in destruct (truediv a b) eqn:E
  end;
  simp H.

Ltac start H :=
  unfold try_body, bind, getitem, setitem, lift, fillna_inplace in H;
  cbv beta iota zeta in H.

Lemma try_body_Ok df df' u :
  try_body parse_number df = (df', Ok u) ->
  exists tsd td tsq tq gp gm st spr,
    getcol "Volume" df <> None
    /\ getcol "total_sales_dollars" (coerce_fill parse_number df) = Some tsd
    /\ getcol "total_dollars" (coerce_fill parse_number df) = Some td
    /\ getcol "total_sales_quantity" (coerce_fill parse_number df) = Some tsq
    /\ getcol "total_quantity" (coerce_fill parse_number df) = Some tq
    /\ sub tsd td = Ok gp
    /\ truediv gp (replace_0_nan tsd) = Ok gm
    /\ truediv tsq (replace_0_nan tq) = Ok st
    /\ truediv tsd (replace_0_nan td) = Ok spr
    /\ df' = setcol "sales_purchase_ratio" spr
               (setcol "stock_turnover" st
                  (setcol "gross_margin" gm
                     (setcol "gross_profit" gp
                        (coerce_fill parse_number df)))).
Proof.
  intros H. unfold coerce_fill.
  start H.
  do 9 (step H; [|discriminate]).
  injection H as <-.
  exists s0, s1, s2, s3, a, a0, a1, a2.
  repeat split; auto; discriminate.
Qed.

Lemma is_zero_iff q : is_zero q = true <-> q == 0.
Proof. apply Qeq_bool_iff. Qed.

Lemma index_coerce_fill df : index (coerce_fill parse_number df) = index df.
Proof. unfold coerce_fill. destruct (getcol "Volume" df); reflexivity. Qed.

Lemma to_numeric_length (s : Series) :
  List.length (to_numeric parse_number s) = List.length s.
Proof. unfold to_numeric. apply length_map. Qed.

Lemma wf_coerce_fill df : wf df -> wf (coerce_fill parse_number df).
Proof.
  intros W. unfold coerce_fill. destruct (getcol "Volume" df) eqn:G; [|exact W].
  apply wf_fillna, wf_setcol; [exact W|].
  rewrite to_numeric_length. eapply wf_getcol; eauto.
Qed.

Lemma coerce_fill_no_null df c s :
  getcol "Volume" df <> None ->
  getcol c (coerce_fill parse_number df) = Some s -> no_null s.
Proof.
  unfold coerce_fill. destruct (getcol "Volume" df); [intros _|congruence].
  rewrite getcol_fillna.
  destruct (getcol c _); simpl; [|discriminate].
  intros [= <-]. apply no_null_fill.
Qed.



Ltac frame_other :=
  intros; rewrite ?getcol_setcol;
  repeat match goal with
         | |- context [String.eqb ?a ?b] =>
             let E := fresh in
             destruct (String.eqb a b) eqn:E;
             [apply String.eqb_eq in E; congruence|]
         end;
  reflexivity.

Ltac terminal H :=
  injection H as <- <-;
  split; [|split; [|split]];
  [ first [ discriminate
          | intros ->;
            first [ eapply sub_no_zero_division; eassumption
                  | eapply truediv_guarded_no_zero_division; eassumption ] ]
  | reflexivity
  | congruence
  | frame_other ].

(** What a failing run leaves behind. *)
Lemma try_body_Raise df df' e :
  try_body parse_number df = (df', Raise e) ->
  e <> ZeroDivisionError
  /\ index df' = index df
  /\ (getcol "Volume" df = None -> df' = df /\ e = KeyError "Volume")
  /\ (forall n : string,
        n <> "gross_profit"%string -> n <> "gross_margin"%string ->
        n <> "stock_turnover"%string ->
        getcol n df' = getcol n (coerce_fill parse_number df)).
Proof.
  intros H. unfold coerce_fill.
  start H.
  step H.
  2:{ injection H as <- <-. repeat split; try discriminate; auto. }
  do 8 (step H; [|terminal H]).
  discriminate.
Qed.



Lemma filled_getcol (v : Series) df c :
  c <> "Volume"%string ->
  getcol c (fillna_0 (setcol "Volume" v df))
  = option_map (map fill_cell) (getcol c df).
Proof.
  intros N. rewrite getcol_fillna, getcol_setcol.
  destruct (String.eqb "Volume" c) eqn:E; [|reflexivity].
  apply String.eqb_eq in E. congruence.
Qed.

Ltac missing_column G :=
  left;
  match type of G with
  | getcol ?c _ = None =>
      exists c; split; [simpl; tauto|];
      rewrite filled_getcol in G by discriminate;
      destruct (getcol c _); [discriminate G|reflexivity]
  end.

Ltac string_cell A :=
  right;
  first [ apply sub_Raise_str in A | apply truediv_guarded_Raise_str in A ];
  destruct A as [A|A];
  match type of A with
  | has_str ?s =>
      match goal with
      | G : getcol ?c _ = Some s |- _ =>
          rewrite filled_getcol in G by discriminate;
          exists c;
          match type of G with
          | option_map _ ?o = Some _ =>
              destruct o as [col|]; [|discriminate];
              injection G as <-; exists col
          end;
          split; [simpl; tauto|];
          split; [reflexivity|now apply fill_cell_str]
      | S : sub _ _ = Ok s |- _ => exfalso; exact (sub_no_str _ _ S A)
      end
  end.

(** Why a run fails: an expected column is missing, or a column it computes
    with holds a string. *)
Lemma try_body_Raise_cause df df' e :
  try_body parse_number df = (df', Raise e) ->
  (exists c, In c expected_columns /\ getcol c df = None)
  \/ (exists c s, In c numeric_columns /\ getcol c df = Some s
                  /\ has_str s).
Proof.
  intros H. start H.
  step H.
  2:{ left. exists "Volume"%string. simpl. auto. }
  step H; [|missing_column G0].
  step H; [|missing_column G1].
  step H; [|string_cell A].
  step H; [|string_cell A0].
  step H; [|missing_column G2].
  step H; [|missing_column G3].
  step H; [|string_cell A1].
  step H; [|string_cell A2].
  discriminate.
Qed.

(** ** Running [clean_vendor_summary] *)

Lemma upd_same (h : store) r d : upd h r d r = d.
Proof. unfold upd. now rewrite Nat.eqb_refl. Qed.

Lemma upd_other (h : store) r d r' : r' <> r -> upd h r d r' = h r'.
Proof.
  intros N. unfold upd. destruct (Nat.eqb_spec r' r); [contradiction|].
  reflexivity.
Qed.

Lemma clean_nonempty df h r h' log :
  empty (h df) = false ->
  clean_vendor_summary parse_number df h = (r, h', log) ->
  exists d res,
    try_body parse_number (h df) = (d, res)
    /\ r = df /\ h' = upd h df d
    /\ log = match res with Ok _ => [] | Raise e => [handler e] end.
Proof.
  unfold clean_vendor_summary. intros ->.
  destruct (try_body parse_number (h df)) as [d [u|e]] eqn:B;
    intros [= <- <- <-]; eauto 6.
Qed.

Lemma clean_success df h r h' :
  clean_vendor_summary parse_number df h = (r, h', []) ->
  empty (h df) = false
  /\ r = df
  /\ try_body parse_number (h df) = (h' df, Ok tt)
  /\ forall r', r' <> df -> h' r' = h r'.
Proof.
  intros H. destruct (empty (h df)) eqn:E.
  - unfold clean_vendor_summary in H. rewrite E in H. discriminate.
  - destruct (clean_nonempty _ _ E H) as (d & res & B & -> & -> & L).
    destruct res as [[]|e]; [|discriminate].
    rewrite upd_same. repeat split; auto. intros. now apply upd_other.
Qed.

(** The cleaning of a non-empty table goes through when the expected
    columns are there and those it computes with hold no string. *)
Lemma clean_numeric_succeeds df h :
  empty (h df) = false ->
  (forall c, In c expected_columns -> getcol c (h df) <> None) ->
  (forall c s, In c numeric_columns -> getcol c (h df) = Some s ->
               ~ has_str s) ->
  snd (clean_vendor_summary parse_number df h) = [].
Proof.
  intros E X N. unfold clean_vendor_summary. rewrite E.
  destruct (try_body parse_number (h df)) as [d [u|e]] eqn:B;
    [reflexivity|].
  exfalso. apply try_body_Raise_cause in B as [(c & Hc & G)|(c & s & Hc & G & S)].
  - now apply (X c).
  - now apply (N c s).
Qed.

(** The enriched table, row by row. *)
Lemma enriched_rows df h r h' :
  wf (h df) ->
  clean_vendor_summary parse_number df h = (r, h', []) ->
  index (h' r) = index (h df)
  /\ wf (h' r)
  /\ forall i, (i < index (h df))%nat ->
     exists a b c d,
       iat (coerce_fill parse_number (h df)) "total_sales_dollars" i
       = Some (Num a)
       /\ iat (h' r) "total_sales_dollars" i = Some (Num a)
       /\ iat (h' r) "total_dollars" i = Some (Num b)
       /\ iat (h' r) "total_sales_quantity" i = Some (Num c)
       /\ iat (h' r) "total_quantity" i = Some (Num d)
       /\ iat (h' r) "gross_profit" i = Some (Num (a - b))
       /\ iat (h' r) "gross_margin" i
          = Some (if is_zero a then NaN else Num ((a - b) / a))
       /\ iat (h' r) "stock_turnover" i
          = Some (if is_zero d then NaN else Num (c / d))
       /\ iat (h' r) "sales_purchase_ratio" i
          = Some (if is_zero b then NaN else Num (a / b)).
Proof.
  intros W H. apply clean_success in H as (_ & -> & B & _).
  apply try_body_Ok in B
    as (tsd & td & tsq & tq & gp & gm & st & spr
        & V & G1 & G2 & G3 & G4 & A1 & A2 & A3 & A4 & ->).
  split; [simpl; apply index_coerce_fill|].
  pose proof (wf_coerce_fill W) as W'.
  pose proof (wf_getcol _ W' G1) as L1.
  pose proof (wf_getcol _ W' G2) as L2.
  pose proof (wf_getcol _ W' G3) as L3.
  pose proof (wf_getcol _ W' G4) as L4.
  rewrite index_coerce_fill in L1, L2, L3, L4.
  pose proof (coerce_fill_no_null _ _ V G1) as N1.
  pose proof (coerce_fill_no_null _ _ V G2) as N2.
  pose proof (coerce_fill_no_null _ _ V G3) as N3.
  pose proof (coerce_fill_no_null _ _ V G4) as N4.
  pose proof (sub_no_null A1 N1 N2) as N5.
  assert (L5 : List.length gp = index (h df)).
  { unfold sub in A1. rewrite (elementwise_length _ _ _ A1). lia. }
  assert (R : forall s : Series,
             List.length (replace_0_nan s) = List.length s)
    by (intros; apply length_map).
  split.
  { unfold truediv in A2, A3, A4.
    apply elementwise_length in A2, A3, A4. rewrite R in A2, A3, A4.
    repeat (apply wf_setcol; [|simpl; rewrite ?index_coerce_fill; lia]).
    exact W'. }
  intros i Hi.
  destruct (@sub_spec tsd td gp i A1) as (a & b & Ha & Hb & Hgp);
    try congruence; try lia.
  destruct (@truediv_guard_spec gp tsd gm i A2) as (x & a' & Hx & Ha' & Hgm);
    try congruence; try lia.
  destruct (@truediv_guard_spec tsq tq st i A3) as (c & d & Hc & Hd & Hst);
    try congruence; try lia.
  destruct (@truediv_guard_spec tsd td spr i A4)
    as (a'' & b' & Ha'' & Hb' & Hspr); try congruence; try lia.
  assert (x = a - b) by congruence.
  assert (a' = a) by congruence. assert (a'' = a) by congruence.
  assert (b' = b) by congruence. subst x a' a'' b'.
  exists a, b, c, d. unfold iat.
  rewrite !getcol_setcol. simpl String.eqb. cbv beta iota.
  rewrite G1, G2, G3, G4. repeat split; assumption.
Qed.

Lemma iat_Some_lt df c i x :
  wf df -> iat df c i = Some x -> (i < index df)%nat.
Proof.
  unfold iat. intros W H. destruct (getcol c df) as [s|] eqn:G; [|discriminate].
  rewrite <- (wf_getcol _ W G). apply nth_error_Some. congruence.
Qed.

(** ** The laws of the Enricher *)

(** C1 (as amended).  In a table enriched without error, gross_margin is
    null on every row whose total_sales_dollars is zero, stock_turnover on
    every row whose total_quantity is zero and sales_purchase_ratio on every
    row whose total_dollars (its divisor) is zero; and no run of the block
    ever reaches the zero-divisor branch of a division. *)
Theorem C1_zero_divisor_guard df h r h' log :
  wf (h df) ->
  clean_vendor_summary parse_number df h = (r, h', log) ->
  log = [] ->
  (forall i, zero_at (h' r) "total_sales_dollars" i ->
             iat (h' r) "gross_margin" i = Some NaN)
  /\ (forall i, zero_at (h' r) "total_quantity" i ->
                iat (h' r) "stock_turnover" i = Some NaN)
  /\ (forall i, zero_at (h' r) "total_dollars" i ->
                iat (h' r) "sales_purchase_ratio" i = Some NaN)
  /\ (forall d, snd (try_body parse_number d) <> Raise ZeroDivisionError).
Proof.
  intros W H ->. destruct (enriched_rows _ _ W H) as (I & W' & Rows).
  assert (Z : forall q, q == 0 -> is_zero q = true)
    by (intros; now apply is_zero_iff).
  split; [|split; [|split]].
  - intros i (q & Hq & Hz).
    pose proof (iat_Some_lt _ _ W' Hq) as Hi. rewrite I in Hi.
    destruct (Rows i Hi) as (a & b & c & d & _ & Ha & _ & _ & _ & _ & G & _).
    assert (a = q) by congruence. subst a. now rewrite G, (Z q Hz).
  - intros i (q & Hq & Hz).
    pose proof (iat_Some_lt _ _ W' Hq) as Hi. rewrite I in Hi.
    destruct (Rows i Hi)
      as (a & b & c & d & _ & _ & _ & _ & Hd & _ & _ & G & _).
    assert (d = q) by congruence. subst d. now rewrite G, (Z q Hz).
  - intros i (q & Hq & Hz).
    pose proof (iat_Some_lt _ _ W' Hq) as Hi. rewrite I in Hi.
    destruct (Rows i Hi)
      as (a & b & c & d & _ & _ & Hb & _ & _ & _ & _ & _ & G).
    assert (b = q) by congruence. subst b. now rewrite G, (Z q Hz).
  - intros d Hd. destruct (try_body parse_number d) as [d' res] eqn:B.
    simpl in Hd. subst res. apply try_body_Raise in B as (N & _).
    now apply N.
Qed.



(** C6.  On an empty table the call returns its argument at once: same
    object, store unchanged (so no column is added), one warning logged. *)
Theorem C6_empty_input df h :
  empty (h df) = true ->
  clean_vendor_summary parse_number df h
  = (df, h,
     [(WARNING,
       "Input DataFrame is empty, skipping cleaning process."%string)]).
Proof. unfold clean_vendor_summary. intros ->. reflexivity. Qed.



End EnricherProperties.

(** ** The Enricher on the example tables *)

Lemma wf_df_two_pairs : wf (store_with df_two_pairs 0%nat).
Proof. repeat constructor. Qed.

Lemma C1_witness :
  let res :=
    clean_vendor_summary parse_digits 0%nat (store_with df_two_pairs) in
  let r := fst (fst res) in
  let h' := snd (fst res) in
  (forall i, zero_at (h' r) "total_sales_dollars" i ->
             iat (h' r) "gross_margin" i = Some NaN)
  /\ (forall i, zero_at (h' r) "total_quantity" i ->
                iat (h' r) "stock_turnover" i = Some NaN)
  /\ (forall i, zero_at (h' r) "total_dollars" i ->
                iat (h' r) "sales_purchase_ratio" i = Some NaN)
  /\ (forall d, snd (try_body parse_digits d) <> Raise ZeroDivisionError).
Proof.
  intros res r h'.
  apply (@C1_zero_divisor_guard parse_digits 0%nat
           (store_with df_two_pairs) r h' (snd res)).
  - repeat constructor.
  - vm_compute. reflexivity.
  - vm_compute. reflexivity.
Defined.

(** C1 as stated fails: the second row of the example has no sales, so its
    total_sales_dollars is zero after the fill, and its sales_purchase_ratio
    is the number 0/30, not a null. *)
Lemma C1_counterexample :
  let T := fst (run_clean parse_digits df_two_pairs) in
  snd (run_clean parse_digits df_two_pairs) = []
  /\ ~ (zero_at T "total_sales_dollars" 1 ->
        iat T "sales_purchase_ratio" 1 = Some NaN).
Proof.
  intros T. split; [reflexivity|]. intros H.
  assert (Z : zero_at T "total_sales_dollars" 1).
  { exists 0. split; reflexivity. }
  apply H in Z. vm_compute in Z. discriminate.
Qed.




Lemma C6_witness :
  clean_vendor_summary parse_digits 0%nat (store_with DataFrame_new)
  = (0%nat, store_with DataFrame_new,
     [(WARNING,
       "Input DataFrame is empty, skipping cleaning process."%string)]).
Proof.
  apply (@C6_empty_input parse_digits 0%nat (store_with DataFrame_new)).
  reflexivity.
Defined.




(** ** Grouping, joining and ordering *)

Section GroupByFacts.

Variables A K : Type.
Variable eqb : K -> K -> bool.
Variable key : A -> K.
Hypothesis eqb_spec : forall x y, eqb x y = true <-> x = y.

Lemma first_seen_incl (l : list A) a : In a (first_seen eqb key l) -> In a l.
Proof.
  induction l as [|b t IH]; simpl; [tauto|].
  intros [->|H]; [now left|]. right. apply IH.
  apply filter_In in H. tauto.
Qed.

Lemma first_seen_keys (l : list A) k :
  In k (map key (first_seen eqb key l)) <-> In k (map key l).
Proof.
  induction l as [|b t IH]; simpl; [tauto|]. split.
  - intros [H|H]; [now left|]. right. apply IH.
    apply in_map_iff in H as (a & <- & Ha). apply filter_In in Ha as (Ha & _).
    now apply in_map.
  - intros [H|H]; [now left|].
    destruct (eqb k (key b)) eqn:E.
    + left. symmetry. now apply eqb_spec.
    + right. apply IH in H. apply in_map_iff in H as (a & <- & Ha).
      apply in_map. apply filter_In. split; [exact Ha|]. now rewrite E.
Qed.

Lemma NoDup_map_filter (f : A -> bool) (l : list A) :
  NoDup (map key l) -> NoDup (map key (filter f l)).
Proof.
  induction l as [|b t IH]; simpl; [auto|]. intros N.
  inversion N as [|? ? Hn N']; subst.
  destruct (f b); simpl; [|auto]. constructor; [|auto].
  intros H. apply Hn. apply in_map_iff in H as (a & Ea & Ha).
  apply filter_In in Ha as (Ha & _). rewrite <- Ea. now apply in_map.
Qed.

Lemma first_seen_NoDup (l : list A) : NoDup (map key (first_seen eqb key l)).
Proof.
  induction l as [|b t IH]; simpl; constructor.
  - intros H. apply in_map_iff in H as (a & Ea & Ha).
    apply filter_In in Ha as (_ & Hf).
    assert (eqb (key a) (key b) = true) by now apply eqb_spec.
    rewrite H in Hf. discriminate.
  - now apply NoDup_map_filter.
Qed.

Lemma group_by_keys (l : list A) :
  map (fun g => key (fst g)) (group_by eqb key l)
  = map key (first_seen eqb key l).
Proof. unfold group_by. rewrite map_map. reflexivity. Qed.


End GroupByFacts.

(** A filter that selects at most one key selects at most one row of a
    list whose keys are distinct. *)
Lemma filter_unique (A K : Type) (key : A -> K) (f : A -> bool)
      (l : list A) :
  NoDup (map key l) ->
  (forall a b, f a = true -> f b = true -> key a = key b) ->
  (List.length (filter f l) <= 1)%nat.
Proof.
  intros N U. induction l as [|a t IH]; simpl; [lia|].
  inversion N as [|? ? Hn N']; subst. specialize (IH N').
  destruct (f a) eqn:Fa; [|exact IH]. simpl.
  destruct (filter f t) as [|b u] eqn:Ft; [simpl; lia|].
  exfalso. apply Hn.
  assert (Hb : In b (filter f t)) by (rewrite Ft; now left).
  apply filter_In in Hb as (Hb & Fb).
  rewrite (U a b Fa Fb). now apply in_map.
Qed.

Section JoinFacts.

Variables A B : Type.
Variable on : A -> B -> bool.

Lemma left_join_In (l : list A) (r : list B) a o :
  In (a, o) (left_join on l r) ->
  In a l /\ match o with
            | Some b => In b r /\ on a b = true
            | None => forall b, In b r -> on a b = false
            end.
Proof.
  unfold left_join. intros H. apply in_flat_map in H as (a' & Ha' & H).
  destruct (filter (on a') r) as [|b m] eqn:F.
  - destruct H as [[= <- <-]|[]]. split; [exact Ha'|].
    intros b Hb. destruct (on a' b) eqn:E; [|reflexivity].
    assert (In b (filter (on a') r)) by (apply filter_In; auto).
    rewrite F in H. destruct H.
  - apply in_map_iff in H as (b' & [= <- <-] & Hb').
    rewrite <- F in Hb'. apply filter_In in Hb'. auto.
Qed.

(** When no row matches twice, a left join keeps the left rows as they
    are, in order. *)
Lemma left_join_fst (l : list A) (r : list B) :
  (forall a, In a l -> (List.length (filter (on a) r) <= 1)%nat) ->
  map fst (left_join on l r) = l.
Proof.
  unfold left_join. induction l as [|a t IH]; [reflexivity|].
  intros U. cbn [flat_map]. rewrite map_app, IH by (intros; apply U; now right).
  specialize (U a (or_introl eq_refl)).
  destruct (filter (on a) r) as [|b [|c m]]; simpl in *;
    [reflexivity|reflexivity|lia].
Qed.

End JoinFacts.

Section OrderByFacts.

Variable A : Type.
Variable leb : A -> A -> bool.
Hypothesis leb_total : forall x y, leb x y = true \/ leb y x = true.
Hypothesis leb_trans :
  forall x y z, leb x y = true -> leb y z = true -> leb x z = true.

Lemma insert_perm a (l : list A) : Permutation (insert leb a l) (a :: l).
Proof.
  induction l as [|b t IH]; simpl; [reflexivity|].
  destruct (leb a b); [reflexivity|].
  rewrite IH. apply perm_swap.
Qed.

Lemma order_by_perm (l : list A) : Permutation (order_by leb l) l.
Proof.
  induction l as [|a t IH]; simpl; [reflexivity|].
  rewrite insert_perm. now constructor.
Qed.

Lemma insert_sorted a (l : list A) :
  StronglySorted (fun x y => leb x y = true) l ->
  StronglySorted (fun x y => leb x y = true) (insert leb a l).
Proof.
  induction 1 as [|b t S IH F]; simpl.
  - constructor; constructor.
  - destruct (leb a b) eqn:E.
    + constructor; [constructor; assumption|].
      constructor; [exact E|].
      rewrite Forall_forall in *. eauto.
    + constructor; [exact IH|].
      rewrite Forall_forall in *. intros x Hx.
      apply (Permutation_in _ (insert_perm a t)) in Hx.
      destruct Hx as [<-|Hx]; [|auto].
      destruct (leb_total a b); congruence.
Qed.

Lemma order_by_sorted (l : list A) :
  StronglySorted (fun x y => leb x y = true) (order_by leb l).
Proof.
  induction l as [|a t IH]; simpl; [constructor|]. now apply insert_sorted.
Qed.

End OrderByFacts.

Lemma StronglySorted_nth (A : Type) (R : A -> A -> Prop) (l : list A) :
  StronglySorted R l ->
  forall i j x y, (i < j)%nat -> nth_error l i = Some x ->
                  nth_error l j = Some y -> R x y.
Proof.
  induction 1 as [|a t S IH F]; intros i j x y Hij Hx Hy.
  - destruct i; discriminate.
  - destruct j as [|j]; [lia|]. simpl in Hy. destruct i as [|i].
    + injection Hx as <-. rewrite Forall_forall in F.
      apply F. eapply nth_error_In; eauto.
    + simpl in Hx. apply (IH i j); auto. lia.
Qed.

(** ** The stages of the query *)

Lemma Qlt_bool_iff x y : Qlt_bool x y = true <-> x < y.
Proof.
  unfold Qlt_bool. rewrite Qlt_alt.
  destruct (x ?= y); split; congruence.
Qed.

Lemma key3_eqb_spec x y : key3_eqb x y = true <-> x = y.
Proof.
  destruct x as [[v n] b], y as [[v' n'] b']. unfold key3_eqb.
  rewrite !andb_true_iff, !Z.eqb_eq, String.eqb_eq.
  split; [intros [[-> ->] ->]; reflexivity | intros [= -> -> ->]; auto].
Qed.

Lemma key2_eqb_spec x y : key2_eqb x y = true <-> x = y.
Proof.
  destruct x as [v b], y as [v' b']. unfold key2_eqb. simpl.
  rewrite andb_true_iff, !Z.eqb_eq.
  split; [intros [-> ->]; reflexivity | intros [= -> ->]; auto].
Qed.

Lemma purchase_rows_In ps pps p pp :
  In (p, pp) (purchase_rows ps pps) <->
  In p ps /\ In pp pps
  /\ purchases.Brand p = purchase_prices.Brand pp
  /\ 0 < purchases.PurchasePrice p.
Proof.
  unfold purchase_rows, inner_join.
  rewrite filter_In, in_flat_map, Qlt_bool_iff. simpl. split.
  - intros ((p' & Hp & H) & Hq).
    apply in_map_iff in H as (pp' & [= <- <-] & H).
    apply filter_In in H as (H & E). apply Z.eqb_eq in E. auto.
  - intros (Hp & Hpp & E & Hq). split; [|exact Hq].
    exists p. split; [exact Hp|]. apply in_map. apply filter_In.
    split; [exact Hpp|]. now apply Z.eqb_eq.
Qed.

(** The keys of the purchase stage are distinct, and they are the keys of
    the qualifying purchase rows. *)
Lemma purchase_summary_keys ps pps :
  let keys :=
    map (fun x => (purchase_summary.VendorNumber x,
                   purchase_summary.VendorName x,
                   purchase_summary.Brand x))
        (purchase_summary_cte ps pps) in
  NoDup keys
  /\ forall k, In k keys <->
               exists p, In p ps /\ qualifies pps p /\ key3 p = k.
Proof.
  intros keys.
  assert (E : keys = map (fun x => key3 (fst x))
                         (first_seen key3_eqb (fun x => key3 (fst x))
                                     (purchase_rows ps pps))).
  { unfold keys, purchase_summary_cte, group_by. rewrite !map_map.
    apply map_ext. intros [p pp]. reflexivity. }
  rewrite E. split.
  - apply first_seen_NoDup. apply key3_eqb_spec.
  - intros k. rewrite (first_seen_keys _ _ key3_eqb_spec), in_map_iff.
    unfold qualifies. split.
    + intros ([p pp] & <- & H). apply purchase_rows_In in H.
      exists p. simpl. intuition eauto.
    + intros (p & Hp & (Hq & pp & Hpp & Eb) & <-).
      exists (p, pp). split; [reflexivity|].
      apply purchase_rows_In. auto.
Qed.

Lemma sales_summary_keys ss :
  NoDup (map (fun s => (sales_summary.VendorNo s, sales_summary.Brand s))
             (sales_summary_cte ss)).
Proof.
  unfold sales_summary_cte, group_by. rewrite !map_map. simpl.
  apply first_seen_NoDup, key2_eqb_spec.
Qed.


Lemma freightsummary_keys vi :
  NoDup (map freightsummary.vendorNumber (freightsummary_cte vi)).
Proof.
  unfold freightsummary_cte, group_by. rewrite !map_map. simpl.
  apply first_seen_NoDup, Z.eqb_eq.
Qed.


(** ** The result set *)

Lemma order_leb_total x y : order_leb x y = true \/ order_leb y x = true.
Proof.
  unfold order_leb.
  rewrite !orb_true_iff, !andb_true_iff, !Z.ltb_lt, !Z.eqb_eq, !Z.leb_le.
  lia.
Qed.

Lemma order_leb_trans x y z :
  order_leb x y = true -> order_leb y z = true -> order_leb x z = true.
Proof.
  unfold order_leb.
  rewrite !orb_true_iff, !andb_true_iff, !Z.ltb_lt, !Z.eqb_eq, !Z.leb_le.
  lia.
Qed.

Lemma sql_query_sorted ps pps ss vi :
  StronglySorted (fun x y => order_leb x y = true) (sql_query ps pps ss vi).
Proof.
  unfold sql_query. apply order_by_sorted.
  - apply order_leb_total.
  - apply order_leb_trans.
Qed.

(** The joins neither drop nor repeat a row of the purchase stage. *)
Lemma sql_query_perm ps pps ss vi :
  Permutation (map row_p (sql_query ps pps ss vi))
              (purchase_summary_cte ps pps).
Proof.
  unfold sql_query.
  rewrite (Permutation_map row_p (order_by_perm order_leb _)).
  assert (E : forall l : list joined_row,
             map row_p l = map fst (map fst l))
    by (intros; rewrite map_map; reflexivity).
  rewrite E, left_join_fst.
  - rewrite left_join_fst; [reflexivity|].
    intros p _.
    apply (filter_unique
             (fun s => (sales_summary.VendorNo s, sales_summary.Brand s))).
    + apply sales_summary_keys.
    + intros a b. rewrite !andb_true_iff, !Z.eqb_eq.
      intros [<- <-] [E1 E2]. now rewrite E1, E2.
  - intros x _. apply (filter_unique freightsummary.vendorNumber).
    + apply freightsummary_keys.
    + intros a b. rewrite !Z.eqb_eq. congruence.
Qed.



(** The keys of the result set. *)
Lemma sql_query_keys ps pps ss vi :
  let keys := map row_key (sql_query ps pps ss vi) in
  NoDup keys
  /\ forall k, In k keys <->
               exists p, In p ps /\ qualifies pps p /\ key3 p = k.
Proof.
  intros keys. destruct (purchase_summary_keys ps pps) as (N & M).
  assert (P : Permutation keys
                (map (fun x => (purchase_summary.VendorNumber x,
                                purchase_summary.VendorName x,
                                purchase_summary.Brand x))
                     (purchase_summary_cte ps pps))).
  { unfold keys, row_key. rewrite <- (sql_query_perm ps pps ss vi).
    rewrite map_map. reflexivity. }
  split.
  - apply (Permutation_NoDup (Permutation_sym P) N).
  - intros k. rewrite <- M. split; apply Permutation_in; auto.
    now apply Permutation_sym.
Qed.

(** ** The frame of the result set *)


Lemma read_sql_query_Ok conn df :
  read_sql_query conn = Ok df ->
  exists ps pps ss vi, df = to_frame (sql_query ps pps ss vi).
Proof.
  unfold read_sql_query. destruct (closed conn); [discriminate|].
  destruct (tbl_vendor_invoice _) as [vi|]; [|discriminate].
  destruct (tbl_purchases _) as [ps|]; [|discriminate].
  destruct (tbl_purchase_prices _) as [pps|]; [|discriminate].
  destruct (tbl_sales _) as [ss|]; [|discriminate].
  intros [= <-]. eauto.
Qed.

Lemma num_Z_inj v w : num_Z v = num_Z w -> v = w.
Proof. unfold num_Z, inject_Z. now intros [= ->]. Qed.

Ltac column := unfold iat, getcol, to_frame; simpl; apply nth_error_map.

Lemma iat_VendorNumber rows i :
  iat (to_frame rows) "VendorNumber" i
  = option_map (fun r => num_Z (purchase_summary.VendorNumber (row_p r)))
               (nth_error rows i).
Proof. column. Qed.

Lemma iat_Brand rows i :
  iat (to_frame rows) "Brand" i
  = option_map (fun r => num_Z (purchase_summary.Brand (row_p r)))
               (nth_error rows i).
Proof. column. Qed.

Lemma iat_total_sales_quantity rows i :
  iat (to_frame rows) "total_sales_quantity" i
  = option_map
      (fun r => nullable sales_summary.total_sales_quantity (row_s r))
      (nth_error rows i).
Proof. column. Qed.

Lemma iat_total_sales_dollars rows i :
  iat (to_frame rows) "total_sales_dollars" i
  = option_map
      (fun r => nullable sales_summary.total_sales_dollars (row_s r))
      (nth_error rows i).
Proof. column. Qed.

Lemma iat_total_sales_price rows i :
  iat (to_frame rows) "total_sales_price" i
  = option_map (fun r => nullable sales_summary.total_sales_price (row_s r))
               (nth_error rows i).
Proof. column. Qed.

Lemma iat_total_excise_tax rows i :
  iat (to_frame rows) "total_excise_tax" i
  = option_map (fun r => nullable sales_summary.total_excise_tax (row_s r))
               (nth_error rows i).
Proof. column. Qed.

Lemma iat_freight_cost rows i :
  iat (to_frame rows) "freight_cost" i
  = option_map (fun r => nullable freightsummary.freight_cost (row_f r))
               (nth_error rows i).
Proof. column. Qed.

(** ** The laws of the Aggregator *)

(** C2.  Whatever error the execution of the query raises,
    [create_vendor_summary] raises nothing: it returns the empty table and
    logs the attempt, then the error with its cause. *)
Theorem C2_query_error_caught conn e :
  read_sql_query conn = Raise e ->
  create_vendor_summary conn
  = (DataFrame_new,
     [(INFO, "Attempting to create vendor summary DataFrame."%string);
      (ERROR, ("Error executing SQL query: " ++ str e)%string)])
  /\ empty (fst (create_vendor_summary conn)) = true.
Proof.
  intros H. unfold create_vendor_summary. rewrite H. split; reflexivity.
Qed.

Lemma C2_witness :
  let conn := mkConnection true (mkDatabase None None None None) in
  create_vendor_summary conn
  = (DataFrame_new,
     [(INFO, "Attempting to create vendor summary DataFrame."%string);
      (ERROR,
       ("Error executing SQL query: "
        ++ str (DatabaseError "Cannot operate on a closed database."))%string)])
  /\ empty (fst (create_vendor_summary conn)) = true.
Proof.
  intros conn.
  apply (@C2_query_error_caught conn
           (DatabaseError "Cannot operate on a closed database.")).
  reflexivity.
Defined.





(** C8.  The rows of the output are in ascending order of (vendor number,
    brand): of two rows, the earlier has the smaller vendor number, or the
    same vendor number and a brand that is not larger. *)
Theorem C8_ordered conn i j :
  (i <= j)%nat ->
  (j < index (fst (create_vendor_summary conn)))%nat ->
  let df := fst (create_vendor_summary conn) in
  exists v1 b1 v2 b2,
    iat df "VendorNumber" i = Some (num_Z v1)
    /\ iat df "Brand" i = Some (num_Z b1)
    /\ iat df "VendorNumber" j = Some (num_Z v2)
    /\ iat df "Brand" j = Some (num_Z b2)
    /\ (v1 < v2 \/ (v1 = v2 /\ b1 <= b2))%Z.
Proof.
  unfold create_vendor_summary.
  destruct (read_sql_query conn) as [df|e] eqn:R; simpl; [|lia].
  apply read_sql_query_Ok in R as (ps & pps & ss & vi & ->). simpl.
  intros Hij Hj. rewrite !iat_VendorNumber, !iat_Brand.
  destruct (nth_error (sql_query ps pps ss vi) j) as [y|] eqn:Hy;
    [|apply nth_error_None in Hy; lia].
  destruct (nth_error (sql_query ps pps ss vi) i) as [x|] eqn:Hx;
    [|apply nth_error_None in Hx; lia].
  simpl. do 4 eexists. do 4 (split; [reflexivity|]).
  destruct (Nat.eq_dec i j) as [->|N].
  - assert (x = y) by congruence. subst. lia.
  - assert (L : order_leb x y = true).
    { eapply (StronglySorted_nth (sql_query_sorted ps pps ss vi));
        [|exact Hx|exact Hy]. lia. }
    unfold order_leb in L.
    rewrite orb_true_iff, andb_true_iff, Z.ltb_lt, Z.eqb_eq, Z.leb_le in L.
    exact L.
Qed.

(** ** The Aggregator on the example store *)


Lemma C8_witness :
  let df :=
    fst (create_vendor_summary
           (connect purchases_example prices_example sales_example
                    freight_example)) in
  exists v1 b1 v2 b2,
    iat df "VendorNumber" 0 = Some (num_Z v1)
    /\ iat df "Brand" 0 = Some (num_Z b1)
    /\ iat df "VendorNumber" 1 = Some (num_Z v2)
    /\ iat df "Brand" 1 = Some (num_Z b2)
    /\ (v1 < v2 \/ (v1 = v2 /\ b1 <= b2))%Z.
Proof.
  apply (@C8_ordered
           (connect purchases_example prices_example sales_example
                    freight_example) 0%nat 1%nat).
  - lia.
  - vm_compute. lia.
Defined.

(** ** The two stages together *)

(** The Enricher goes through on every non-empty table the Aggregator
    returns: the query gives it all the columns it expects, and numbers or
    nulls in those it computes with. *)
Lemma clean_after_create parse_number ps pps ss vi df h :
  h df = fst (create_vendor_summary (connect ps pps ss vi)) ->
  empty (h df) = false ->
  snd (clean_vendor_summary parse_number df h) = [].
Proof.
  intros Hd E. apply clean_numeric_succeeds; [exact E| |]; rewrite Hd.
  - intros c Hc. simpl in Hc.
    destruct Hc as [<-|[<-|[<-|[<-|[<-|[]]]]]]; discriminate.
  - intros c s Hc G (t & Ht). simpl in Hc.
    destruct Hc as [<-|[<-|[<-|[<-|[]]]]]; injection G as <-;
      apply in_map_iff in Ht as (r & Hr & _);
      try discriminate; destruct (row_s r); discriminate.
Qed.



(** * Further properties *)

(** ** The columns of the purchase stage in the frame *)

Lemma iat_VendorName rows i :
  iat (to_frame rows) "VendorName" i
  = option_map (fun r => Str (purchase_summary.VendorName (row_p r)))
               (nth_error rows i).
Proof. column. Qed.

Lemma iat_PurchasePrice rows i :
  iat (to_frame rows) "PurchasePrice" i
  = option_map (fun r => Num (purchase_summary.PurchasePrice (row_p r)))
               (nth_error rows i).
Proof. column. Qed.

Lemma iat_description rows i :
  iat (to_frame rows) "description" i
  = option_map (fun r => Str (purchase_summary.description (row_p r)))
               (nth_error rows i).
Proof. column. Qed.

Lemma iat_Volume rows i :
  iat (to_frame rows) "Volume" i
  = option_map (fun r => purchase_summary.Volume (row_p r))
               (nth_error rows i).
Proof. column. Qed.

Lemma iat_actual_price rows i :
  iat (to_frame rows) "actual_price" i
  = option_map (fun r => Num (purchase_summary.actual_price (row_p r)))
               (nth_error rows i).
Proof. column. Qed.

Lemma iat_total_quantity rows i :
  iat (to_frame rows) "total_quantity" i
  = option_map (fun r => Num (purchase_summary.total_quantity (row_p r)))
               (nth_error rows i).
Proof. column. Qed.

Lemma iat_total_dollars rows i :
  iat (to_frame rows) "total_dollars" i
  = option_map (fun r => Num (purchase_summary.total_dollars (row_p r)))
               (nth_error rows i).
Proof. column. Qed.

Lemma create_connect ps pps ss vi :
  fst (create_vendor_summary (connect ps pps ss vi))
  = to_frame (sql_query ps pps ss vi).
Proof. reflexivity. Qed.

(** ** Where the rows of the result set come from *)

Lemma sql_query_row_p ps pps ss vi r :
  In r (sql_query ps pps ss vi) -> In (row_p r) (purchase_summary_cte ps pps).
Proof.
  intros H. apply (Permutation_in _ (sql_query_perm ps pps ss vi)).
  now apply in_map.
Qed.

(** A row of the purchase stage: its bare columns are those of one joined
    row, its totals run over the joined rows of its key. *)
Lemma purchase_summary_In ps pps x :
  In x (purchase_summary_cte ps pps) ->
  exists p pp,
    In (p, pp) (purchase_rows ps pps)
    /\ x = purchase_summary.mk
             (purchases.VendorNumber p) (purchases.VendorName p)
             (purchases.Brand p) (purchases.PurchasePrice p)
             (purchases.description p)
             (purchase_prices.Volume pp) (purchase_prices.Price pp)
             (SUM (map (fun y => purchases.Quantity (fst y))
                       (filter (fun y => key3_eqb (key3 (fst y)) (key3 p))
                               (purchase_rows ps pps))))
             (SUM (map (fun y => purchases.Dollars (fst y))
                       (filter (fun y => key3_eqb (key3 (fst y)) (key3 p))
                               (purchase_rows ps pps)))).
Proof.
  unfold purchase_summary_cte, group_by. rewrite map_map.
  intros H. apply in_map_iff in H as ([p pp] & <- & H).
  apply first_seen_incl in H. exists p, pp. split; [exact H|reflexivity].
Qed.

Lemma sql_query_row_s ps pps ss vi r :
  In r (sql_query ps pps ss vi) ->
  match row_s r with
  | Some s =>
      In s (sales_summary_cte ss)
      /\ sales_summary.VendorNo s = purchase_summary.VendorNumber (row_p r)
      /\ sales_summary.Brand s = purchase_summary.Brand (row_p r)
  | None =>
      forall s, In s (sales_summary_cte ss) ->
                ~ (sales_summary.VendorNo s
                   = purchase_summary.VendorNumber (row_p r)
                   /\ sales_summary.Brand s
                      = purchase_summary.Brand (row_p r))
  end.
Proof.
  unfold sql_query. intros H.
  apply (Permutation_in _ (order_by_perm order_leb _)) in H.
  destruct r as [[p os] f]. unfold row_s, row_p. simpl.
  apply left_join_In in H as (H & _).
  apply left_join_In in H as (_ & H).
  destruct os as [s|].
  - destruct H as (H & E). apply andb_true_iff in E as (E1 & E2).
    apply Z.eqb_eq in E1, E2. auto.
  - intros s Hs [E1 E2]. specialize (H s Hs).
    rewrite <- E1, <- E2, !Z.eqb_refl in H. discriminate.
Qed.

Lemma sql_query_row_f ps pps ss vi r :
  In r (sql_query ps pps ss vi) ->
  match row_f r with
  | Some f =>
      In f (freightsummary_cte vi)
      /\ freightsummary.vendorNumber f
         = purchase_summary.VendorNumber (row_p r)
  | None =>
      forall f, In f (freightsummary_cte vi) ->
                freightsummary.vendorNumber f
                <> purchase_summary.VendorNumber (row_p r)
  end.
Proof.
  unfold sql_query. intros H.
  apply (Permutation_in _ (order_by_perm order_leb _)) in H.
  destruct r as [[p os] o]. unfold row_f, row_p. simpl.
  apply left_join_In in H as (_ & H). simpl in H.
  destruct o as [f|].
  - destruct H as (H & E). apply Z.eqb_eq in E. auto.
  - intros f Hf E. specialize (H f Hf).
    rewrite <- E, Z.eqb_refl in H. discriminate.
Qed.

(** A row of the sales stage carries the sums over the sales rows of its
    pair, and every pair with a sales row has one. *)
Lemma sales_summary_row ss s :
  In s (sales_summary_cte ss) ->
  let G := sales_of (sales_summary.VendorNo s) (sales_summary.Brand s) ss in
  G <> []
  /\ s = sales_summary.mk
           (sales_summary.VendorNo s) (sales_summary.Brand s)
           (SUM (map sales.SalesQuantity G)) (SUM (map sales.SalesDollars G))
           (SUM (map sales.SalesPrice G)) (SUM (map sales.ExciseTax G)).
Proof.
  unfold sales_summary_cte, group_by. rewrite map_map.
  intros H. apply in_map_iff in H as (s0 & <- & H). simpl.
  apply first_seen_incl in H. split; [|reflexivity].
  intros E.
  assert (I : In s0 (sales_of (sales.VendorNo s0) (sales.Brand s0) ss)).
  { apply filter_In. split; [exact H|]. now apply key2_eqb_spec. }
  rewrite E in I. destruct I.
Qed.

Lemma sales_summary_has ss v b :
  sales_of v b ss <> [] ->
  exists s, In s (sales_summary_cte ss)
            /\ sales_summary.VendorNo s = v /\ sales_summary.Brand s = b.
Proof.
  intros N. destruct (sales_of v b ss) as [|x t] eqn:E; [congruence|].
  assert (Hx : In x (sales_of v b ss)) by (rewrite E; now left).
  apply filter_In in Hx as (Hx & K). apply key2_eqb_spec in K.
  assert (M : In (v, b)
                 (map (fun s => (sales_summary.VendorNo s,
                                 sales_summary.Brand s))
                      (sales_summary_cte ss))).
  { unfold sales_summary_cte, group_by. rewrite !map_map. simpl.
    apply (first_seen_keys _ _ key2_eqb_spec).
    rewrite <- K. now apply (in_map (fun s => (sales.VendorNo s, sales.Brand s))). }
  apply in_map_iff in M as (s & [= <- <-] & Hs). eauto.
Qed.

Lemma freightsummary_row vi f :
  In f (freightsummary_cte vi) ->
  let G := freight_of (freightsummary.vendorNumber f) vi in
  G <> []
  /\ freightsummary.freight_cost f = SUM (map vendor_invoice.Freight G).
Proof.
  unfold freightsummary_cte, group_by. rewrite map_map.
  intros H. apply in_map_iff in H as (f0 & <- & H). simpl.
  apply first_seen_incl in H. split; [|reflexivity].
  intros E.
  assert (I : In f0 (freight_of (vendor_invoice.VendorNumber f0) vi)).
  { apply filter_In. split; [exact H|]. apply Z.eqb_refl. }
  rewrite E in I. destruct I.
Qed.

Lemma freightsummary_has vi v :
  freight_of v vi <> [] ->
  exists f, In f (freightsummary_cte vi) /\ freightsummary.vendorNumber f = v.
Proof.
  intros N. destruct (freight_of v vi) as [|x t] eqn:E; [congruence|].
  assert (Hx : In x (freight_of v vi)) by (rewrite E; now left).
  apply filter_In in Hx as (Hx & K). apply Z.eqb_eq in K.
  assert (M : In v (map freightsummary.vendorNumber (freightsummary_cte vi))).
  { unfold freightsummary_cte, group_by. rewrite !map_map. simpl.
    apply (first_seen_keys _ _ Z.eqb_eq).
    rewrite <- K. now apply in_map. }
  apply in_map_iff in M as (f & <- & Hf). eauto.
Qed.

(** The joined row behind each row of the result set. *)
Lemma row_origin ps pps ss vi r :
  In r (sql_query ps pps ss vi) ->
  exists p pp,
    In p ps /\ In pp pps
    /\ purchase_prices.Brand pp = purchases.Brand p
    /\ 0 < purchases.PurchasePrice p
    /\ row_key r = key3 p
    /\ purchase_summary.PurchasePrice (row_p r) = purchases.PurchasePrice p
    /\ purchase_summary.description (row_p r) = purchases.description p
    /\ purchase_summary.Volume (row_p r) = purchase_prices.Volume pp
    /\ purchase_summary.actual_price (row_p r) = purchase_prices.Price pp.
Proof.
  intros H. apply sql_query_row_p, purchase_summary_In in H
    as (p & pp & H & E).
  apply purchase_rows_In in H as (Hp & Hpp & Eb & Hq).
  exists p, pp. unfold row_key. rewrite E. simpl. repeat split; auto.
Qed.

Lemma existsb_brand pps b :
  existsb (fun pp => (purchase_prices.Brand pp =? b)%Z) pps
  = match filter (fun pp => (b =? purchase_prices.Brand pp)%Z) pps with
    | [] => false
    | _ => true
    end.
Proof.
  induction pps as [|pp t IH]; simpl; [reflexivity|].
  rewrite (Z.eqb_sym b). destruct (purchase_prices.Brand pp =? b)%Z;
    simpl; auto.
Qed.

(** With one price reference per brand at most, the join keeps each
    qualifying purchase row once. *)
Lemma purchase_rows_fst ps pps :
  NoDup (map purchase_prices.Brand pps) ->
  map fst (purchase_rows ps pps) = filter (qualifies_b pps) ps.
Proof.
  intros N. unfold purchase_rows, inner_join.
  induction ps as [|p t IH]; [reflexivity|].
  cbn [flat_map filter]. rewrite filter_app, map_app, IH.
  unfold qualifies_b at 2. rewrite existsb_brand.
  assert (U : (List.length
                 (filter (fun pp => (purchases.Brand p
                                     =? purchase_prices.Brand pp)%Z) pps)
               <= 1)%nat).
  { apply (filter_unique purchase_prices.Brand); [exact N|].
    intros a b. rewrite !Z.eqb_eq. congruence. }
  destruct (filter _ pps) as [|pp [|pp' m]]; simpl in *;
    [| |lia].
  - rewrite andb_false_r. reflexivity.
  - rewrite andb_true_r.
    destruct (Qlt_bool 0 (purchases.PurchasePrice p)); reflexivity.
Qed.

Lemma map_fst_filter (A B : Type) (f : A -> bool) (l : list (A * B)) :
  map fst (filter (fun y => f (fst y)) l) = filter f (map fst l).
Proof.
  induction l as [|[a b] t IH]; simpl; [reflexivity|].
  destruct (f a); simpl; now rewrite IH.
Qed.

(** ** More laws of the Aggregator *)

(** X1.  The sales columns of an output row are the sums over the sales
    rows of its (vendor, brand) pair, and null when the pair has none. *)
Theorem X1_sales_aggregates ps pps ss vi i v b :
  let df := fst (create_vendor_summary (connect ps pps ss vi)) in
  iat df "VendorNumber" i = Some (num_Z v) ->
  iat df "Brand" i = Some (num_Z b) ->
  iat df "total_sales_quantity" i
  = Some (aggregate sales.SalesQuantity (sales_of v b ss))
  /\ iat df "total_sales_dollars" i
     = Some (aggregate sales.SalesDollars (sales_of v b ss))
  /\ iat df "total_sales_price" i
     = Some (aggregate sales.SalesPrice (sales_of v b ss))
  /\ iat df "total_excise_tax" i
     = Some (aggregate sales.ExciseTax (sales_of v b ss)).
Proof.
  intros df. unfold df. rewrite create_connect.
  rewrite iat_VendorNumber, iat_Brand, iat_total_sales_quantity,
    iat_total_sales_dollars, iat_total_sales_price, iat_total_excise_tax.
  destruct (nth_error (sql_query ps pps ss vi) i) as [r|] eqn:Hi;
    simpl; [|discriminate].
  intros [= Ev] [= Eb]. apply nth_error_In in Hi.
  pose proof (sql_query_row_s _ _ _ _ _ Hi) as S.
  destruct (row_s r) as [s|]; simpl.
  - destruct S as (Hs & E1 & E2).
    destruct (sales_summary_row _ _ Hs) as (Ne & Es).
    rewrite E1, E2, Ev, Eb in Ne, Es.
    destruct (sales_of v b ss) as [|x t] eqn:G; [congruence|].
    unfold aggregate. rewrite Es. simpl. auto.
  - assert (G : sales_of v b ss = []).
    { destruct (sales_of v b ss) as [|x t] eqn:G; [reflexivity|].
      exfalso.
      destruct (@sales_summary_has ss v b) as (s & Hs & E1 & E2);
        [rewrite G; discriminate|].
      apply (S s Hs). split; congruence. }
    rewrite G. simpl. auto.
Qed.

(** X2.  The freight cost of an output row is the sum over the freight
    rows of its vendor, whatever the brand, and null when the vendor has
    none. *)
Theorem X2_freight_per_vendor ps pps ss vi i v :
  let df := fst (create_vendor_summary (connect ps pps ss vi)) in
  iat df "VendorNumber" i = Some (num_Z v) ->
  iat df "freight_cost" i
  = Some (aggregate vendor_invoice.Freight (freight_of v vi)).
Proof.
  intros df. unfold df. rewrite create_connect.
  rewrite iat_VendorNumber, iat_freight_cost.
  destruct (nth_error (sql_query ps pps ss vi) i) as [r|] eqn:Hi;
    simpl; [|discriminate].
  intros [= Ev]. apply nth_error_In in Hi.
  pose proof (sql_query_row_f _ _ _ _ _ Hi) as F.
  destruct (row_f r) as [f|]; simpl.
  - destruct F as (Hf & E).
    destruct (freightsummary_row _ _ Hf) as (Ne & Ef).
    rewrite E, Ev in Ne, Ef.
    destruct (freight_of v vi) as [|x t] eqn:G; [congruence|].
    unfold aggregate. now rewrite Ef.
  - assert (G : freight_of v vi = []).
    { destruct (freight_of v vi) as [|x t] eqn:G; [reflexivity|].
      exfalso.
      destruct (@freightsummary_has vi v) as (f & Hf & E);
        [rewrite G; discriminate|].
      apply (F f Hf). congruence. }
    now rewrite G.
Qed.

(** X3.  When no brand has two price references, the purchase totals of an
    output row are the sums of quantity and dollars over the purchase rows
    of its (vendor number, vendor name, brand) group that have a positive
    price and a price reference. *)
Theorem X3_purchase_totals ps pps ss vi i v n b :
  NoDup (map purchase_prices.Brand pps) ->
  let df := fst (create_vendor_summary (connect ps pps ss vi)) in
  iat df "VendorNumber" i = Some (num_Z v) ->
  iat df "VendorName" i = Some (Str n) ->
  iat df "Brand" i = Some (num_Z b) ->
  iat df "total_quantity" i
  = Some (Num (SUM (map purchases.Quantity (purchases_of (v, n, b) ps pps))))
  /\ iat df "total_dollars" i
     = Some (Num (SUM (map purchases.Dollars
                           (purchases_of (v, n, b) ps pps)))).
Proof.
  intros N df. unfold df. rewrite create_connect.
  rewrite iat_VendorNumber, iat_VendorName, iat_Brand, iat_total_quantity,
    iat_total_dollars.
  destruct (nth_error (sql_query ps pps ss vi) i) as [r|] eqn:Hi;
    simpl; [|discriminate].
  intros [= Ev] [= En] [= Eb]. apply nth_error_In in Hi.
  apply sql_query_row_p, purchase_summary_In in Hi as (p & pp & _ & E).
  rewrite E in Ev, En, Eb. simpl in Ev, En, Eb.
  assert (K : key3 p = (v, n, b)) by (unfold key3; congruence).
  assert (F : forall g : purchases.row -> Q,
             map (fun y : purchases.row * purchase_prices.row => g (fst y))
                 (filter (fun y => key3_eqb (key3 (fst y)) (key3 p))
                         (purchase_rows ps pps))
             = map g (purchases_of (v, n, b) ps pps)).
  { intros g. unfold purchases_of.
    rewrite <- (@purchase_rows_fst ps pps N), K.
    rewrite <- (map_fst_filter (fun q => key3_eqb (key3 q) (v, n, b))).
    now rewrite map_map. }
  rewrite E.
  cbn [purchase_summary.total_quantity purchase_summary.total_dollars].
  now rewrite !F.
Qed.

(** X4.  Every output row stems from one purchase row with a positive
    price joined to one price reference of its brand: they give the row its
    key, its purchase price and description, and its catalog volume and
    price. *)
Theorem X4_row_origin ps pps ss vi i :
  let df := fst (create_vendor_summary (connect ps pps ss vi)) in
  (i < index df)%nat ->
  exists p pp,
    In p ps /\ In pp pps
    /\ purchase_prices.Brand pp = purchases.Brand p
    /\ 0 < purchases.PurchasePrice p
    /\ iat df "VendorNumber" i = Some (num_Z (purchases.VendorNumber p))
    /\ iat df "VendorName" i = Some (Str (purchases.VendorName p))
    /\ iat df "Brand" i = Some (num_Z (purchases.Brand p))
    /\ iat df "PurchasePrice" i = Some (Num (purchases.PurchasePrice p))
    /\ iat df "description" i = Some (Str (purchases.description p))
    /\ iat df "Volume" i = Some (purchase_prices.Volume pp)
    /\ iat df "actual_price" i = Some (Num (purchase_prices.Price pp)).
Proof.
  intros df. unfold df. rewrite create_connect. simpl. intros Hi.
  rewrite iat_VendorNumber, iat_VendorName, iat_Brand, iat_PurchasePrice,
    iat_description, iat_Volume, iat_actual_price.
  destruct (nth_error (sql_query ps pps ss vi) i) as [r|] eqn:Hr;
    [|apply nth_error_None in Hr; lia].
  apply nth_error_In in Hr.
  destruct (row_origin _ _ _ _ _ Hr)
    as (p & pp & Hp & Hpp & Eb & Hq & K & E1 & E2 & E3 & E4).
  unfold row_key, key3 in K. injection K as K1 K2 K3.
  exists p, pp. simpl. rewrite K1, K2, K3, E1, E2, E3, E4.
  repeat split; auto.
Qed.

(** X5.  A brand without a price reference is in no row of the output, and
    neither is a (vendor, brand) pair none of whose purchase rows has a
    positive price. *)
Theorem X5_excluded ps pps ss vi i v b :
  (forall pp, In pp pps -> purchase_prices.Brand pp <> b)
  \/ (forall p, In p ps -> purchases.VendorNumber p = v ->
                purchases.Brand p = b ->
                ~ 0 < purchases.PurchasePrice p) ->
  let df := fst (create_vendor_summary (connect ps pps ss vi)) in
  ~ (iat df "VendorNumber" i = Some (num_Z v)
     /\ iat df "Brand" i = Some (num_Z b)).
Proof.
  intros X df. unfold df. rewrite create_connect.
  rewrite iat_VendorNumber, iat_Brand.
  destruct (nth_error (sql_query ps pps ss vi) i) as [r|] eqn:Hr;
    simpl; [|intros [? _]; discriminate].
  intros [[= Ev] [= Eb]]. apply nth_error_In in Hr.
  destruct (row_origin _ _ _ _ _ Hr)
    as (p & pp & Hp & Hpp & Ebr & Hq & K & _).
  unfold row_key, key3 in K. injection K as K1 _ K3.
  destruct X as [X|X].
  - apply (X pp Hpp). congruence.
  - apply (X p Hp); congruence.
Qed.

Lemma create_empty_iff ps pps ss vi :
  empty (fst (create_vendor_summary (connect ps pps ss vi))) = false
  <-> exists p, In p ps /\ qualifies pps p.
Proof.
  rewrite create_connect. unfold empty. simpl. rewrite orb_false_r.
  destruct (sql_query_keys ps pps ss vi) as (_ & M).
  rewrite Nat.eqb_neq. split.
  - intros N. destruct (sql_query ps pps ss vi) as [|r t] eqn:E;
      [contradiction|].
    destruct (proj1 (M (row_key r))) as (p & Hp & Hq & _);
      [now left|eauto].
  - intros (p & Hp & Hq) E.
    assert (I : In (key3 p) (map row_key (sql_query ps pps ss vi)))
      by (apply M; eauto).
    apply length_zero_iff_nil in E. rewrite E in I. destruct I.
Qed.


(** ** More on the [try] block *)

Section EnricherMore.

Variable parse_number : string -> option Q.

Ltac start H :=
  unfold try_body, bind, getitem, setitem, lift, fillna_inplace in H;
  cbv beta iota zeta in H.

Ltac simp H :=
  repeat first
    [ progress rewrite getcol_setcol in H
    | progress simpl String.eqb in H
    | progress cbv beta iota zeta in H
    | match goal with E : getcol _ _ = _ |- _ => rewrite E in H end ].

Ltac step H :=
  match type of H with
  | context [match getcol ?c ?d with _ => _ end] =>
      let E := fresh "G" in destruct (getcol c d) eqn:E
  | context [match sub ?a ?b with _ => _ end] =>
      let E := fresh "A" in destruct (sub a b) eqn:E
  | context [match truediv ?a ?b with _ => _ end] =>
      let E := fresh "A" in destruct (truediv a b) eqn:E
  end;
  simp H.

(** Whatever the outcome, a column that is not a derived one is the coerced
    and filled input column. *)
Lemma try_body_frame df d res :
  try_body parse_number df = (d, res) ->
  forall n, ~ In n derived_columns ->
            getcol n d = getcol n (coerce_fill parse_number df).
Proof.
  intros B n Hn. unfold derived_columns in Hn. simpl in Hn.
  destruct res as [u|e].
  - apply try_body_Ok in B
      as (tsd & td & tsq & tq & gp & gm & st & spr & _ & _ & _ & _ & _
          & _ & _ & _ & _ & ->).
    rewrite !getcol_setcol.
    repeat match goal with
           | |- context [String.eqb ?a ?b] =>
               let Eq := fresh in
               destruct (String.eqb a b) eqn:Eq;
               [apply String.eqb_eq in Eq; subst; tauto|]
           end.
    reflexivity.
  - apply try_body_Raise in B as (_ & _ & _ & F).
    apply F; intros ->; tauto.
Qed.

Lemma labels_fillna df : labels (fillna_0 df) = labels df.
Proof. unfold labels, fillna_0. simpl. now rewrite map_map. Qed.

Lemma labels_assign (c : string) (s : Series) l :
  map fst (assign c s l) = add_label (map fst l) c.
Proof.
  unfold add_label. induction l as [|[c' s'] t IH]; simpl; [reflexivity|].
  destruct (String.eqb c' c) eqn:E; simpl.
  - apply String.eqb_eq in E. now subst.
  - rewrite IH. now destruct (existsb _ (map fst t)).
Qed.

Lemma labels_setcol (c : string) (s : Series) df :
  labels (setcol c s df) = add_label (labels df) c.
Proof. apply labels_assign. Qed.

Lemma add_label_present df c (s : Series) :
  getcol c df = Some s -> add_label (labels df) c = labels df.
Proof.
  unfold getcol, add_label, labels.
  induction (columns df) as [|[c' s'] t IH]; simpl; [discriminate|].
  destruct (String.eqb c' c); simpl; [reflexivity|].
  intros H. specialize (IH H).
  destruct (existsb _ (map fst t)); [reflexivity|].
  apply (f_equal (@List.length string)) in IH.
  rewrite length_app in IH. simpl in IH. lia.
Qed.

Ltac label_case k :=
  exists k; split; [|first [discriminate | reflexivity]];
  rewrite ?labels_setcol, ?labels_fillna, ?labels_setcol;
  repeat match goal with
         | G : getcol "Volume" ?d = Some _ |- _ =>
             rewrite (add_label_present _ _ G)
         end;
  reflexivity.

(** The shape of the table after a run: the labels it had, in their order,
    then the derived columns that were computed, in the order of the
    block. *)
Lemma try_body_labels df d res :
  try_body parse_number df = (d, res) ->
  exists k,
    labels d = fold_left add_label (firstn k derived_columns) (labels df)
    /\ (res = Ok tt -> k = 4%nat).
Proof.
  intros H. start H.
  step H.
  2:{ injection H as <- <-. exists 0%nat. split; [reflexivity|discriminate]. }
  step H; [|injection H as <- <-; label_case 0%nat].
  step H; [|injection H as <- <-; label_case 0%nat].
  step H; [|injection H as <- <-; label_case 0%nat].
  step H; [|injection H as <- <-; label_case 1%nat].
  step H; [|injection H as <- <-; label_case 2%nat].
  step H; [|injection H as <- <-; label_case 2%nat].
  step H; [|injection H as <- <-; label_case 2%nat].
  step H; [|injection H as <- <-; label_case 3%nat].
  injection H as <- <-; label_case 4%nat.
Qed.

End EnricherMore.

(** ** More laws of the Enricher *)

Section EnricherLaws.

Variable parse_number : string -> option Q.

(** X7.  In a table enriched without error, on every row whose divisor is
    not zero the ratio metric is the quotient: gross_margin is
    (total_sales_dollars - total_dollars) / total_sales_dollars,
    stock_turnover is total_sales_quantity / total_quantity and
    sales_purchase_ratio is total_sales_dollars / total_dollars. *)
Theorem X7_ratio_values df h r h' log i :
  wf (h df) ->
  clean_vendor_summary parse_number df h = (r, h', log) ->
  log = [] ->
  (i < index (h' r))%nat ->
  exists a b c d,
    iat (h' r) "total_sales_dollars" i = Some (Num a)
    /\ iat (h' r) "total_dollars" i = Some (Num b)
    /\ iat (h' r) "total_sales_quantity" i = Some (Num c)
    /\ iat (h' r) "total_quantity" i = Some (Num d)
    /\ (~ a == 0 ->
        iat (h' r) "gross_margin" i = Some (Num ((a - b) / a)))
    /\ (~ d == 0 -> iat (h' r) "stock_turnover" i = Some (Num (c / d)))
    /\ (~ b == 0 ->
        iat (h' r) "sales_purchase_ratio" i = Some (Num (a / b))).
Proof.
  intros W H -> Hi. destruct (enriched_rows _ _ _ W H) as (I & _ & Rows).
  rewrite I in Hi.
  destruct (Rows i Hi)
    as (a & b & c & d & _ & Ha & Hb & Hc & Hd & _ & G1 & G2 & G3).
  assert (Z : forall q, ~ q == 0 -> is_zero q = false).
  { intros q Hq. destruct (is_zero q) eqn:E; [|reflexivity].
    apply is_zero_iff in E. contradiction. }
  exists a, b, c, d. repeat split; try assumption; intros Hz;
    rewrite (Z _ Hz) in *; assumption.
Qed.


(** X9.  The cleaning of a non-empty table keeps its rows and its columns
    where they are: the labels afterwards are the labels before, in their
    order, followed by those derived columns that were computed and were
    not there, in the order gross_profit, gross_margin, stock_turnover,
    sales_purchase_ratio; all four after a run without error. *)
Theorem X9_shape df h r h' log :
  empty (h df) = false ->
  clean_vendor_summary parse_number df h = (r, h', log) ->
  index (h' r) = index (h df)
  /\ exists k,
       labels (h' r)
       = fold_left add_label (firstn k derived_columns) (labels (h df))
       /\ (log = [] -> k = 4%nat).
Proof.
  intros E H.
  destruct (clean_nonempty _ _ _ E H) as (d & res & B & -> & -> & L).
  rewrite upd_same. split.
  - destruct res as [u|e].
    + apply try_body_Ok in B
        as (? & ? & ? & ? & ? & ? & ? & ? & _ & _ & _ & _ & _ & _ & _ & _
            & _ & ->).
      simpl. apply index_coerce_fill.
    + now apply try_body_Raise in B as (_ & I & _).
  - destruct (try_body_labels _ _ B) as (k & Hk & Hs).
    exists k. split; [exact Hk|]. intros ->.
    destruct res as [[]|e]; [auto|discriminate].
Qed.


End EnricherLaws.

(** ** The two stages and the driver *)

Lemma wf_to_frame rows : wf (to_frame rows).
Proof.
  unfold wf, to_frame. simpl.
  repeat (constructor; [simpl; now rewrite length_map|]). constructor.
Qed.

Lemma create_cases conn :
  (exists e, read_sql_query conn = Raise e
             /\ create_vendor_summary conn
                = (DataFrame_new,
                   [(INFO,
                     "Attempting to create vendor summary DataFrame."%string);
                    (ERROR,
                     ("Error executing SQL query: " ++ str e)%string)]))
  \/ (exists ps pps ss vi,
        database conn = mkDatabase (Some ps) (Some pps) (Some ss) (Some vi)
        /\ create_vendor_summary conn
           = (to_frame (sql_query ps pps ss vi),
              [(INFO,
                "Attempting to create vendor summary DataFrame."%string);
               (INFO,
                "Vendor summary DataFrame created successfully."%string)])).
Proof.
  unfold create_vendor_summary.
  destruct (read_sql_query conn) as [df|e] eqn:R; [right|left; eauto].
  unfold read_sql_query in R. destruct (closed conn); [discriminate|].
  destruct (database conn) as [[ps|] [pps|] [ss|] [vi|]]; simpl in R;
    try discriminate.
  injection R as <-. exists ps, pps, ss, vi. auto.
Qed.

(** On a non-empty table of the Aggregator the Enricher runs its block to
    the end. *)
Lemma clean_created parse_number ps pps ss vi :
  let df := to_frame (sql_query ps pps ss vi) in
  empty df = false ->
  exists d,
    try_body parse_number df = (d, Ok tt)
    /\ clean_vendor_summary parse_number 0%nat (fresh_store df)
       = (0%nat, upd (fresh_store df) 0%nat d, []).
Proof.
  intros df E.
  pose proof (@clean_after_create parse_number ps pps ss vi 0%nat
                                  (fresh_store df) eq_refl E) as L.
  unfold clean_vendor_summary in *.
  change (fresh_store df 0%nat) with df in *. rewrite E in *.
  destruct (try_body parse_number df) as [d [[]|e]]; [eauto|discriminate].
Qed.


Lemma main_connect_error parse_number w msg :
  sqlite3_connect w = ConnectError msg ->
  main parse_number w
  = mkRun None []
          [(CRITICAL, ("Database connection error: " ++ msg)%string)]
          false.
Proof. unfold main. now intros ->. Qed.

(** The run of the driver on a store it could connect to. *)
Lemma main_connected parse_number w db :
  sqlite3_connect w = Connected db ->
  let created := create_vendor_summary (mkConnection false db) in
  (empty (fst created) = true
   /\ main parse_number w
      = mkRun None []
              (snd created
               ++ [(ERROR, "No data to process. Exiting."%string);
                   closing_record])
              true)
  \/ (exists ps pps ss vi d,
        db = mkDatabase (Some ps) (Some pps) (Some ss) (Some vi)
        /\ (exists p, In p ps /\ qualifies pps p)
        /\ try_body parse_number (to_frame (sql_query ps pps ss vi))
           = (d, Ok tt)
        /\ main parse_number w
           = match to_csv_error w with
             | None =>
                 mkRun (Some d) [saved_message]
                       (snd created
                        ++ [(INFO, saved_message); closing_record])
                       true
             | Some msg =>
                 mkRun None []
                       (snd created
                        ++ [(CRITICAL,
                             ("An unhandled error occurred: "
                              ++ msg)%string);
                            closing_record])
                       true
             end).
Proof.
  intros Hc created. unfold main. rewrite Hc.
  fold created. destruct created as [df log1] eqn:C. simpl.
  destruct (empty df) eqn:E; simpl; [left; auto|]. right.
  destruct (create_cases (mkConnection false db))
    as [(e & _ & C')|(ps & pps & ss & vi & Hdb & C')];
    unfold created in C; rewrite C' in C; injection C as <- <-;
    [discriminate|].
  simpl in Hdb. subst db.
  destruct (@clean_created parse_number ps pps ss vi E) as (d & B & K).
  exists ps, pps, ss, vi, d. split; [reflexivity|]. split.
  { apply (create_empty_iff ps pps ss vi). exact E. }
  split; [exact B|]. rewrite K. rewrite upd_same.
  destruct (to_csv_error w); reflexivity.
Qed.

(** ** Laws of the driver *)



(** X14.  The connection is closed exactly when it was made, and the record
    of its closing is then the last of the log and appears once; when the
    connection fails the run writes and prints nothing and logs one
    CRITICAL record. *)
Theorem X14_connection_closed parse_number w :
  (run_closed (main parse_number w) = true
   <-> exists db, sqlite3_connect w = Connected db)
  /\ (run_closed (main parse_number w) = true ->
      exists l, run_log (main parse_number w) = (l ++ [closing_record])%list
                /\ ~ In closing_record l)
  /\ (run_closed (main parse_number w) = false ->
      run_csv (main parse_number w) = None
      /\ run_stdout (main parse_number w) = []
      /\ exists msg, run_log (main parse_number w) = [(CRITICAL, msg)]).
Proof.
  destruct (sqlite3_connect w) as [msg|db] eqn:C.
  - rewrite (main_connect_error parse_number w C). simpl.
    split; [split; [discriminate|intros [db Hdb]; discriminate]|].
    split; [discriminate|]. eauto.
  - assert (L : forall l,
               l = snd (create_vendor_summary (mkConnection false db)) ->
               ~ In closing_record l).
    { intros l ->.
      destruct (create_cases (mkConnection false db))
        as [(e & _ & K)|(? & ? & ? & ? & _ & K)]; rewrite K; simpl;
        unfold closing_record; intuition discriminate. }
    destruct (main_connected parse_number w C)
      as [(_ & M)|(ps & pps & ss & vi & d & -> & Q & B & M)];
      rewrite M.
    + cbn [run_closed run_log run_csv run_stdout].
      split; [split; eauto|]. split; [|discriminate]. intros _.
      eexists (_ ++ [_])%list. rewrite <- app_assoc. split; [reflexivity|].
      intros I. apply in_app_or in I as [I|[I|[]]];
        [now apply (L _ eq_refl)|discriminate].
    + destruct (to_csv_error w);
        cbn [run_closed run_log run_csv run_stdout];
        (split; [split; eauto|]); (split; [|discriminate]); intros _;
        eexists (_ ++ [_])%list; rewrite <- app_assoc;
        (split; [reflexivity|]);
        intros I; apply in_app_or in I as [I|[I|[]]];
        try (now apply (L _ eq_refl)); discriminate.
Qed.


(** ** Cleaning a cleaned table *)

Lemma assign_same (c : string) (s : Series) l :
  assoc c l = Some s -> assign c s l = l.
Proof.
  induction l as [|[c' s'] t IH]; simpl; [discriminate|].
  destruct (String.eqb c' c) eqn:E.
  - apply String.eqb_eq in E. intros [= ->]. now subst.
  - intros H. now rewrite IH.
Qed.

Lemma fill_fixed (s : Series) : no_null s -> map fill_cell s = s.
Proof.
  induction 1 as [|c t Hc _ IH]; simpl; [reflexivity|].
  rewrite IH. now destruct c.
Qed.

Lemma assoc_None (c : string) (l : list (string * Series)) :
  ~ In c (map fst l) -> assoc c l = None.
Proof.
  induction l as [|[c' s'] t IH]; simpl; [reflexivity|].
  intros N. destruct (String.eqb c' c) eqn:E.
  - apply String.eqb_eq in E. tauto.
  - apply IH. tauto.
Qed.

(** Two frames' columns with the same distinct labels and the same
    lookups are the same. *)
Lemma assoc_ext (l1 l2 : list (string * Series)) :
  map fst l1 = map fst l2 -> NoDup (map fst l1) ->
  (forall c, assoc c l1 = assoc c l2) -> l1 = l2.
Proof.
  revert l2. induction l1 as [|[c s] t IH]; intros [|[c' s'] t'] L N X;
    try discriminate; [reflexivity|].
  simpl in L. injection L as <- L. inversion N as [|? ? Hc N']; subst.
  pose proof (X c) as Xc. simpl in Xc. rewrite String.eqb_refl in Xc.
  injection Xc as <-. f_equal. apply IH; auto.
  intros c0. specialize (X c0). simpl in X.
  destruct (String.eqb c c0) eqn:E; [|exact X].
  apply String.eqb_eq in E. subst c0.
  rewrite !assoc_None; auto. now rewrite <- L.
Qed.

Lemma add_label_NoDup ls c : NoDup ls -> NoDup (add_label ls c).
Proof.
  intros N. unfold add_label.
  destruct (existsb (fun c' => String.eqb c' c) ls) eqn:E; [exact N|].
  apply NoDup_app; [exact N|repeat constructor; simpl; tauto|].
  intros x Hx [Hc|[]]. subst x.
  assert (existsb (fun c' => String.eqb c' c) ls = true); [|congruence].
  apply existsb_exists. exists c. split; [exact Hx|apply String.eqb_refl].
Qed.

Lemma empty_setcol (c : string) (s : Series) df :
  empty (setcol c s df) = (index df =? 0)%nat.
Proof.
  unfold empty, setcol. simpl.
  destruct (columns df) as [|[c' s'] t]; simpl;
    [|destruct (String.eqb c' c)]; apply orb_false_r.
Qed.

Section CleanTwice.

Variable parse_number : string -> option Q.

Lemma to_numeric_filled (v : Series) :
  to_numeric parse_number (map fill_cell (to_numeric parse_number v))
  = map fill_cell (to_numeric parse_number v).
Proof.
  unfold to_numeric. rewrite !map_map. apply map_ext. intros [|q|t]; simpl;
    try reflexivity.
  destruct (parse_number t); reflexivity.
Qed.

(** The block on a table that already holds what the block computes. *)
Lemma try_body_again T vol tsd td tsq tq gp gm st spr :
  getcol "Volume" T = Some vol ->
  to_numeric parse_number vol = vol ->
  getcol "total_sales_dollars" T = Some tsd -> no_null tsd ->
  getcol "total_dollars" T = Some td -> no_null td ->
  getcol "total_sales_quantity" T = Some tsq -> no_null tsq ->
  getcol "total_quantity" T = Some tq -> no_null tq ->
  sub tsd td = Ok gp ->
  truediv gp (replace_0_nan tsd) = Ok gm ->
  truediv tsq (replace_0_nan tq) = Ok st ->
  truediv tsd (replace_0_nan td) = Ok spr ->
  try_body parse_number T
  = (setcol "sales_purchase_ratio" spr
       (setcol "stock_turnover" st
          (setcol "gross_margin" gm
             (setcol "gross_profit" gp (fillna_0 T)))), Ok tt).
Proof.
  intros V Nv G1 N1 G2 N2 G3 N3 G4 N4 A1 A2 A3 A4.
  assert (S : setcol "Volume" vol T = T).
  { unfold setcol. destruct T as [n cols]. simpl. f_equal.
    now apply assign_same. }
  unfold try_body, bind, getitem, setitem, lift, fillna_inplace.
  rewrite V, Nv, S.
  repeat (rewrite ?getcol_setcol, ?getcol_fillna; simpl String.eqb;
          cbv beta iota zeta;
          rewrite ?G1, ?G2, ?G3, ?G4; simpl option_map;
          rewrite ?(fill_fixed N1), ?(fill_fixed N2), ?(fill_fixed N3),
            ?(fill_fixed N4), ?A1, ?A2, ?A3, ?A4).
  reflexivity.
Qed.

Lemma enriched_again df d :
  wf df -> NoDup (labels df) ->
  try_body parse_number df = (d, Ok tt) ->
  try_body parse_number d = (d, Ok tt).
Proof.
  intros W N B.
  pose proof (try_body_frame _ _ B) as F.
  destruct (try_body_labels _ _ B) as (k & Hk & Hs).
  rewrite (Hs eq_refl) in Hk.
  pose proof (try_body_Ok _ _ B)
    as (tsd & td & tsq & tq & gp & gm & st & spr
        & V & G1 & G2 & G3 & G4 & A1 & A2 & A3 & A4 & E).
  destruct (getcol "Volume" df) as [v|] eqn:Vc; [clear V|congruence].
  assert (O : forall n, ~ In n derived_columns ->
                getcol n d = getcol n (coerce_fill parse_number df))
    by exact F.
  assert (ND : forall c : string,
             In c expected_columns -> ~ In c derived_columns).
  { intros c Hc Hd. unfold expected_columns, derived_columns in *.
    simpl in *. intuition (subst; discriminate). }
  assert (D1 : getcol "gross_profit" d = Some gp)
    by (rewrite E, !getcol_setcol; reflexivity).
  assert (D2 : getcol "gross_margin" d = Some gm)
    by (rewrite E, !getcol_setcol; reflexivity).
  assert (D3 : getcol "stock_turnover" d = Some st)
    by (rewrite E, !getcol_setcol; reflexivity).
  assert (D4 : getcol "sales_purchase_ratio" d = Some spr)
    by (rewrite E, !getcol_setcol; reflexivity).
  assert (Vn : getcol "Volume" (coerce_fill parse_number df) <> None).
  { unfold coerce_fill. rewrite Vc, getcol_fillna, getcol_setcol.
    discriminate. }
  assert (Vd : getcol "Volume" d
               = Some (map fill_cell (to_numeric parse_number v))).
  { rewrite O by (apply ND; simpl; auto).
    unfold coerce_fill. rewrite Vc, getcol_fillna, getcol_setcol.
    reflexivity. }
  assert (NN : forall c s, getcol c (coerce_fill parse_number df) = Some s ->
                           no_null s).
  { intros c s. apply coerce_fill_no_null. congruence. }
  assert (Gd1 : getcol "total_sales_dollars" d = Some tsd)
    by (rewrite O by (apply ND; simpl; auto); assumption).
  assert (Gd2 : getcol "total_dollars" d = Some td)
    by (rewrite O by (apply ND; simpl; auto); assumption).
  assert (Gd3 : getcol "total_sales_quantity" d = Some tsq)
    by (rewrite O by (apply ND; simpl; auto); assumption).
  assert (Gd4 : getcol "total_quantity" d = Some tq)
    by (rewrite O by (apply ND; simpl; auto 6); assumption).
  rewrite (@try_body_again d _ tsd td tsq tq gp gm st spr Vd
             (to_numeric_filled v) Gd1 (NN _ _ G1) Gd2 (NN _ _ G2)
             Gd3 (NN _ _ G3) Gd4 (NN _ _ G4) A1 A2 A3 A4).
  f_equal.
  destruct d as [n cols] eqn:Ed. unfold setcol, fillna_0. simpl. f_equal.
  apply assoc_ext.
  - change (labels (setcol "sales_purchase_ratio" spr
              (setcol "stock_turnover" st
                 (setcol "gross_margin" gm
                    (setcol "gross_profit" gp
                       (fillna_0 (mkDataFrame n cols))))))
            = labels (mkDataFrame n cols)).
    rewrite !labels_setcol, labels_fillna.
    assert (P : forall c (s : Series),
               getcol c (mkDataFrame n cols) = Some s ->
               add_label (labels (mkDataFrame n cols)) c
               = labels (mkDataFrame n cols))
      by (intros; eapply add_label_present; eauto).
    now rewrite (P _ _ D1), (P _ _ D2), (P _ _ D3), (P _ _ D4).
  - change (NoDup (labels (setcol "sales_purchase_ratio" spr
              (setcol "stock_turnover" st
                 (setcol "gross_margin" gm
                    (setcol "gross_profit" gp
                       (fillna_0 (mkDataFrame n cols)))))))).
    rewrite !labels_setcol, labels_fillna.
    change (labels (mkDataFrame n cols)) with (map fst cols).
    unfold labels in Hk. simpl in Hk. rewrite Hk.
    simpl. repeat apply add_label_NoDup. exact N.
  - intros c.
    change (getcol c (setcol "sales_purchase_ratio" spr
              (setcol "stock_turnover" st
                 (setcol "gross_margin" gm
                    (setcol "gross_profit" gp
                       (fillna_0 (mkDataFrame n cols))))))
            = getcol c (mkDataFrame n cols)).
    rewrite !getcol_setcol, getcol_fillna.
    destruct (String.eqb "sales_purchase_ratio" c) eqn:E4;
      [apply String.eqb_eq in E4; subst c; now rewrite D4|].
    destruct (String.eqb "stock_turnover" c) eqn:E3;
      [apply String.eqb_eq in E3; subst c; now rewrite D3|].
    destruct (String.eqb "gross_margin" c) eqn:E2;
      [apply String.eqb_eq in E2; subst c; now rewrite D2|].
    destruct (String.eqb "gross_profit" c) eqn:E1;
      [apply String.eqb_eq in E1; subst c; now rewrite D1|].
    apply String.eqb_neq in E1, E2, E3, E4.
    rewrite O by (unfold derived_columns; simpl; intuition congruence).
    destruct (getcol c (coerce_fill parse_number df)) as [s|] eqn:Gc;
      [|reflexivity].
    simpl. now rewrite (fill_fixed (NN _ _ Gc)).
Qed.

(** X17.  Cleaning is idempotent: when the cleaning of a table with
    distinct labels went through, cleaning the result again goes through
    and leaves the table as it is. *)
Theorem X17_idempotent df h r h' log :
  wf (h df) ->
  NoDup (labels (h df)) ->
  clean_vendor_summary parse_number df h = (r, h', log) ->
  log = [] ->
  exists h'',
    clean_vendor_summary parse_number r h' = (r, h'', [])
    /\ h'' r = h' r
    /\ forall r', r' <> r -> h'' r' = h' r'.
Proof.
  intros W N H ->.
  pose proof (clean_success _ _ _ H) as (E & -> & B & _).
  pose proof (enriched_again W N B) as B2.
  assert (E2 : empty (h' df) = false).
  { pose proof (try_body_Ok _ _ B)
      as (? & ? & ? & ? & ? & ? & ? & spr & _ & _ & _ & _ & _ & _ & _ & _
          & _ & Ed).
    rewrite Ed, empty_setcol. cbn [index setcol].
    rewrite index_coerce_fill.
    unfold empty in E. now apply orb_false_iff in E as (E & _). }
  exists (upd h' df (h' df)). unfold clean_vendor_summary.
  rewrite E2, B2. split; [reflexivity|]. split.
  - apply upd_same.
  - intros r' Hr. now apply upd_other.
Qed.

End CleanTwice.


(** ** The further laws on the examples *)

Lemma X1_witness :
  let df :=
    fst (create_vendor_summary
           (connect purchases_example prices_example sales_example
                    freight_example)) in
  iat df "total_sales_quantity" 1
  = Some (aggregate sales.SalesQuantity (sales_of 2 10 sales_example))
  /\ iat df "total_sales_dollars" 1
     = Some (aggregate sales.SalesDollars (sales_of 2 10 sales_example))
  /\ iat df "total_sales_price" 1
     = Some (aggregate sales.SalesPrice (sales_of 2 10 sales_example))
  /\ iat df "total_excise_tax" 1
     = Some (aggregate sales.ExciseTax (sales_of 2 10 sales_example)).
Proof.
  apply (@X1_sales_aggregates purchases_example prices_example
           sales_example freight_example 1%nat 2%Z 10%Z);
    reflexivity.
Defined.

Lemma X2_witness :
  let df :=
    fst (create_vendor_summary
           (connect purchases_example prices_example sales_example
                    freight_example)) in
  iat df "freight_cost" 1
  = Some (aggregate vendor_invoice.Freight (freight_of 2 freight_example)).
Proof.
  apply (@X2_freight_per_vendor purchases_example prices_example
           sales_example freight_example 1%nat 2%Z).
  reflexivity.
Defined.

Lemma X3_witness :
  let df :=
    fst (create_vendor_summary
           (connect purchases_example prices_example sales_example
                    freight_example)) in
  iat df "total_quantity" 0
  = Some (Num (SUM (map purchases.Quantity
                        (purchases_of (1%Z, "ACME"%string, 10%Z)
                                      purchases_example prices_example))))
  /\ iat df "total_dollars" 0
     = Some (Num (SUM (map purchases.Dollars
                           (purchases_of (1%Z, "ACME"%string, 10%Z)
                                         purchases_example
                                         prices_example)))).
Proof.
  apply (@X3_purchase_totals purchases_example prices_example
           sales_example freight_example 0%nat 1%Z "ACME"%string 10%Z);
    try reflexivity.
  simpl. repeat constructor; simpl; intuition discriminate.
Defined.

Lemma X4_witness :
  let df :=
    fst (create_vendor_summary
           (connect purchases_example prices_example sales_example
                    freight_example)) in
  exists p pp,
    In p purchases_example /\ In pp prices_example
    /\ purchase_prices.Brand pp = purchases.Brand p
    /\ 0 < purchases.PurchasePrice p
    /\ iat df "VendorNumber" 0 = Some (num_Z (purchases.VendorNumber p))
    /\ iat df "VendorName" 0 = Some (Str (purchases.VendorName p))
    /\ iat df "Brand" 0 = Some (num_Z (purchases.Brand p))
    /\ iat df "PurchasePrice" 0 = Some (Num (purchases.PurchasePrice p))
    /\ iat df "description" 0 = Some (Str (purchases.description p))
    /\ iat df "Volume" 0 = Some (purchase_prices.Volume pp)
    /\ iat df "actual_price" 0 = Some (Num (purchase_prices.Price pp)).
Proof.
  apply (@X4_row_origin purchases_example prices_example sales_example
           freight_example 0%nat).
  vm_compute. lia.
Defined.

Lemma X5_witness :
  let df :=
    fst (create_vendor_summary
           (connect purchases_example prices_example sales_example
                    freight_example)) in
  ~ (iat df "VendorNumber" 0 = Some (num_Z 1)
     /\ iat df "Brand" 0 = Some (num_Z 12)).
Proof.
  apply (@X5_excluded purchases_example prices_example sales_example
           freight_example 0%nat 1%Z 12%Z).
  left. intros pp Hpp. simpl in Hpp.
  destruct Hpp as [<-|[<-|[]]]; simpl; discriminate.
Defined.

Lemma X7_witness :
  let res :=
    clean_vendor_summary parse_digits 0%nat (store_with df_two_pairs) in
  let r := fst (fst res) in
  let h' := snd (fst res) in
  exists a b c d,
    iat (h' r) "total_sales_dollars" 0 = Some (Num a)
    /\ iat (h' r) "total_dollars" 0 = Some (Num b)
    /\ iat (h' r) "total_sales_quantity" 0 = Some (Num c)
    /\ iat (h' r) "total_quantity" 0 = Some (Num d)
    /\ (~ a == 0 ->
        iat (h' r) "gross_margin" 0 = Some (Num ((a - b) / a)))
    /\ (~ d == 0 -> iat (h' r) "stock_turnover" 0 = Some (Num (c / d)))
    /\ (~ b == 0 ->
        iat (h' r) "sales_purchase_ratio" 0 = Some (Num (a / b))).
Proof.
  intros res r h'.
  apply (@X7_ratio_values parse_digits 0%nat (store_with df_two_pairs)
           r h' (snd res) 0%nat).
  - repeat constructor.
  - vm_compute. reflexivity.
  - vm_compute. reflexivity.
  - vm_compute. lia.
Defined.


Lemma X9_witness :
  let res :=
    clean_vendor_summary parse_digits 0%nat (store_with df_two_pairs) in
  let r := fst (fst res) in
  let h' := snd (fst res) in
  let log := snd res in
  index (h' r) = index (store_with df_two_pairs 0%nat)
  /\ exists k,
       labels (h' r)
       = fold_left add_label (firstn k derived_columns)
                   (labels (store_with df_two_pairs 0%nat))
       /\ (log = [] -> k = 4%nat).
Proof.
  intros res r h' log.
  apply (@X9_shape parse_digits 0%nat (store_with df_two_pairs) r h' log).
  - reflexivity.
  - vm_compute. reflexivity.
Defined.






Lemma X17_witness :
  let res :=
    clean_vendor_summary parse_digits 0%nat (store_with df_two_pairs) in
  let r := fst (fst res) in
  let h' := snd (fst res) in
  exists h'',
    clean_vendor_summary parse_digits r h' = (r, h'', [])
    /\ h'' r = h' r
    /\ forall r', r' <> r -> h'' r' = h' r'.
Proof.
  intros res r h'.
  apply (@X17_idempotent parse_digits 0%nat (store_with df_two_pairs)
           r h' (snd res)).
  - repeat constructor.
  - simpl. repeat constructor; simpl; intuition discriminate.
  - vm_compute. reflexivity.
  - vm_compute. reflexivity.
Defined.
